(** * socket_listener.js: SocketListener and StateListener

    A shallow embedding of [src/web/socket_listener.js] and the properties of
    its two classes.  The JavaScript objects live in a small store (one list
    per kind of object, a reference is an index), methods are computations in
    a state-and-exception monad over that store, and the functions the source
    builds with [function(...) {...}.bind(this)] are the constructors of [Fn],
    interpreted by [Browser.callFn].

    What the browser provides is modelled as far as the source relies on it:
    - [new WebSocket(url)] throws for a URL the platform rejects, which is
      the parameter [acceptsUrl], and otherwise yields a fresh socket without
      listeners; a SocketListener whose first [new WebSocket] throws never
      leaves its constructor, so the store holds only instances whose URL was
      accepted;
    - [addEventListener] appends a listener, an event runs the listeners of
      its type in registration order, and an exception escaping a listener is
      reported without stopping the others;
    - [window.setTimeout] appends to the list of pending timers;
    - [JSON.parse] is the parameter [JSON_parse];
    - [String.prototype.formatUnicorn], which the source requires, only
      formats console messages: a console entry keeps the values it shows. *)

From Stdlib Require Import ZArith Ascii String List Bool Lia.
From stdpp Require Import base list strings.
Import ListNotations.

Local Open Scope string_scope.
Local Open Scope list_scope.
Set Warnings "-register-all".

(** ** JavaScript values, events and completions *)

(** A value as [JSON.parse] produces it, and [undefined].  No arithmetic is
    done on numbers here: a number keeps its literal. *)
Inductive JsValue :=
| JUndefined
| JNull
| JBool (b : bool)
| JNumber (literal : string)
| JString (str : string)
| JArray (items : list JsValue)
| JObject (fields : list (string * JsValue)).

(** The event object handed to a listener: its own [type], and [data] (the
    text of a message; [JSON.parse] sees its argument as a string). *)
Record Event := { type : string; data : string }.

(** [event.type] where a parameter is called [type] as well. *)
Abbreviation eventType := type (only parsing).

Inductive JsError :=
| SyntaxError
| ReferenceError
| TypeError
| DOMException.    (* what [new WebSocket] throws for a URL it rejects *)

Inductive Completion (A : Type) :=
| Normal (a : A)
| Throw (e : JsError).
Arguments Normal {A} a.
Arguments Throw {A} e.

(** URLs that every platform accepts for a WebSocket: [wss://], a lower-case
    letter, then lower-case letters, digits and slashes.  The URL parser reads
    them as a host and a path, the scheme is [wss] and there is no fragment. *)
Definition isLower (c : ascii) : bool :=
  (97 <=? nat_of_ascii c)%nat && (nat_of_ascii c <=? 122)%nat.
Definition isDigit (c : ascii) : bool :=
  (48 <=? nat_of_ascii c)%nat && (nat_of_ascii c <=? 57)%nat.
Fixpoint plainPath (str : string) : bool :=
  match str with
  | EmptyString => true
  | String c rest => (isLower c || isDigit c || Ascii.eqb c "/") && plainPath rest
  end.
Definition plainUrl (url : string) : bool :=
  match url with
  | String "w" (String "s" (String "s" (String ":" (String "/" (String "/"
      (String c rest)))))) => isLower c && plainPath rest
  | _ => false
  end.

(** What the platform decides: its JSON parser ([None] is its SyntaxError),
    and which URLs [new WebSocket] accepts (for the others it throws); the
    answer for one URL is always the same, and the plain URLs above are
    accepted. *)
Class Platform := {
  JSON_parse : string -> option JsValue;
  acceptsUrl : string -> bool;
  accepts_plain : forall url, plainUrl url = true -> acceptsUrl url = true
}.

(** ** Functions and objects *)

(** The function values that reach a listener.  [PageFn] is a function of the
    embedding page: the model records that it was called and with what. *)
Inductive Fn :=
| PageFn (id : nat)
| RunClosure (self : nat) (type : string)
    (* run(): function(event) {this.genericEventListener(type, event);}.bind(this) *)
| ReconnectClosure (self : nat).
    (* initConnection(): the "close" function(event) {...}.bind(this) *)

Module SocketListenerObj.
Record t := mk {
  url : string;
  callbacks : option (list (string * Fn));  (* None: undefined; else the properties in for-in order *)
  closed_repeat_delay : Z;
  socket : option nat                       (* None: undefined *)
}.
Definition set_socket (k : nat) (o : t) : t :=
  mk (url o) (callbacks o) (closed_repeat_delay o) (Some k).
End SocketListenerObj.

Module StateListenerObj.
Record t := mk {
  url : string;
  stateChangeCallback : option nat;         (* None: undefined; else a page function *)
  state : JsValue;
  s : option nat                            (* None: undefined; else the SocketListener *)
}.
Definition set_state (v : JsValue) (o : t) : t :=
  mk (url o) (stateChangeCallback o) v (s o).
Definition set_s (l : nat) (o : t) : t :=
  mk (url o) (stateChangeCallback o) (state o) (Some l).
End StateListenerObj.

(** A WebSocket of the browser: where it connects, its listeners (event type
    and the scope holding the function the listener calls), and whether
    [close()] was called on it. *)
Record WebSocket := {
  ws_url : string;
  listeners : list (string * nat);
  closeCalled : bool
}.

Inductive TimerFn :=
| BoundInitConnection (self : nat).           (* this.initConnection.bind(this) *)

Record Timer := { handler : TimerFn; timeout : Z }.

Inductive LogEntry :=
| DebugConnecting (url : string)
| DebugClosed (url : string) (delay : Z)
| ErrorNoCallbacks
| InfoNoCallback (state : JsValue).

Inductive Arg := ArgEvent (e : Event) | ArgValue (v : JsValue).

(** What can be observed from outside, in order. *)
Inductive Effect :=
| Console (entry : LogEntry)
| Parsed (text : string)
| Called (f : nat) (arg : Arg)
| Uncaught (e : JsError).

Record World := {
  stateListeners : list StateListenerObj.t;
  socketListeners : list SocketListenerObj.t;
  sockets : list WebSocket;
  scopes : list (option Fn);   (* the variable [callback] of each addListeners activation *)
  timers : list Timer;         (* pending window.setTimeout calls *)
  trace : list Effect
}.

Definition emptyWorld : World :=
  {| stateListeners := []; socketListeners := []; sockets := []; scopes := [];
     timers := []; trace := [] |}.

Definition with_stateListeners (x : list StateListenerObj.t) (w : World) : World :=
  {| stateListeners := x; socketListeners := socketListeners w; sockets := sockets w;
     scopes := scopes w; timers := timers w; trace := trace w |}.
Definition with_socketListeners (x : list SocketListenerObj.t) (w : World) : World :=
  {| stateListeners := stateListeners w; socketListeners := x; sockets := sockets w;
     scopes := scopes w; timers := timers w; trace := trace w |}.
Definition with_sockets (x : list WebSocket) (w : World) : World :=
  {| stateListeners := stateListeners w; socketListeners := socketListeners w; sockets := x;
     scopes := scopes w; timers := timers w; trace := trace w |}.
Definition with_scopes (x : list (option Fn)) (w : World) : World :=
  {| stateListeners := stateListeners w; socketListeners := socketListeners w;
     sockets := sockets w; scopes := x; timers := timers w; trace := trace w |}.
Definition with_timers (x : list Timer) (w : World) : World :=
  {| stateListeners := stateListeners w; socketListeners := socketListeners w;
     sockets := sockets w; scopes := scopes w; timers := x; trace := trace w |}.
Definition with_trace (x : list Effect) (w : World) : World :=
  {| stateListeners := stateListeners w; socketListeners := socketListeners w;
     sockets := sockets w; scopes := scopes w; timers := timers w; trace := x |}.

(** ** The monad of method bodies

    A computation runs from a world to a completion and the world it leaves;
    what was written before a throw stays written. *)
Definition Js (A : Type) : Type := World -> Completion A * World.

Definition ret {A} (a : A) : Js A := fun w => (Normal a, w).
Definition throw {A} (e : JsError) : Js A := fun w => (Throw e, w).
Definition bind {A B} (c : Js A) (k : A -> Js B) : Js B :=
  fun w => match c w with
           | (Normal a, w') => k a w'
           | (Throw e, w') => (Throw e, w')
           end.

Notation "'do' x <- c ; k" := (bind c (fun x => k))
  (at level 10, x name, c at level 100, k at level 200).

Definition emit (e : Effect) : Js unit :=
  fun w => (Normal tt, with_trace (trace w ++ [e]) w).

(** Dereferencing [this]; a reference outside the store does not occur in a
    running program and is a TypeError here. *)
Definition readSocketListener (this : nat) : Js SocketListenerObj.t :=
  fun w => match socketListeners w !! this with
           | Some o => (Normal o, w)
           | None => (Throw TypeError, w)
           end.
Definition writeSocketListener (this : nat) (f : SocketListenerObj.t -> SocketListenerObj.t)
  : Js unit :=
  fun w => match socketListeners w !! this with
           | Some o => (Normal tt, with_socketListeners (<[this := f o]> (socketListeners w)) w)
           | None => (Throw TypeError, w)
           end.
Definition readStateListener (this : nat) : Js StateListenerObj.t :=
  fun w => match stateListeners w !! this with
           | Some o => (Normal o, w)
           | None => (Throw TypeError, w)
           end.
Definition writeStateListener (this : nat) (f : StateListenerObj.t -> StateListenerObj.t)
  : Js unit :=
  fun w => match stateListeners w !! this with
           | Some o => (Normal tt, with_stateListeners (<[this := f o]> (stateListeners w)) w)
           | None => (Throw TypeError, w)
           end.

(** ** The browser's primitives *)

(** [new WebSocket(url)] for a URL the platform accepts.  A URL reaches the
    platform first in the constructor of SocketListener, which throws for a
    rejected one; every later [new WebSocket(this.url)] of the instance gets
    the same, accepted URL ([reachable_urls_accepted] below). *)
Definition newWebSocket (url : string) : Js nat :=
  fun w => (Normal (length (sockets w)),
            with_sockets (sockets w ++ [{| ws_url := url; listeners := []; closeCalled := false |}]) w).

Definition attach (ws : WebSocket) (new : list (string * nat)) : WebSocket :=
  {| ws_url := ws_url ws; listeners := listeners ws ++ new; closeCalled := closeCalled ws |}.

(** Every listener the source adds is a new function object, so none is
    dropped as a duplicate of one already there. *)
Definition addEventListener (k : nat) (type : string) (scope : nat) : Js unit :=
  fun w => match sockets w !! k with
           | Some ws =>
               (Normal tt, with_sockets (<[k := attach ws [(type, scope)]]> (sockets w)) w)
           | None => (Throw TypeError, w)
           end.

Definition socketClose (k : nat) : Js unit :=
  fun w => match sockets w !! k with
           | Some ws =>
               (Normal tt,
                with_sockets (<[k := {| ws_url := ws_url ws; listeners := listeners ws;
                                        closeCalled := true |}]> (sockets w)) w)
           | None => (Throw TypeError, w)
           end.

Definition setTimeout (f : TimerFn) (ms : Z) : Js unit :=
  fun w => (Normal tt, with_timers (timers w ++ [{| handler := f; timeout := ms |}]) w).

(** A fresh binding of the variable [callback], undefined until assigned. *)
Definition newScope : Js nat :=
  fun w => (Normal (length (scopes w)), with_scopes (scopes w ++ [None]) w).
Definition assignScope (scope : nat) (f : Fn) : Js unit :=
  fun w => (Normal tt, with_scopes (<[scope := Some f]> (scopes w)) w).

Fixpoint forIn {A} (props : list A) (body : A -> Js unit) : Js unit :=
  match props with
  | [] => ret tt
  | p :: rest => do _ <- body p; forIn rest body
  end.

(** ** class SocketListener *)
Module SocketListener.

(** [var callback] is one variable of the activation: every listener the
    loop creates refers to it, not to the value it had when the listener
    was created. *)
Definition addListeners (this : nat) (callbacks : option (list (string * Fn))) : Js unit :=
  match callbacks with
  | None => emit (Console ErrorNoCallbacks)
  | Some props =>
      do callback <- newScope;
      forIn props (fun '(prop, f) =>
        do _ <- assignScope callback f;
        do o <- readSocketListener this;
        match SocketListenerObj.socket o with
        | Some k => addEventListener k prop callback
        | None => throw TypeError
        end)
  end.

Definition initConnection (this : nat) : Js unit :=
  do o <- readSocketListener this;
  do _ <- emit (Console (DebugConnecting (SocketListenerObj.url o)));
  do k <- newWebSocket (SocketListenerObj.url o);
  do _ <- writeSocketListener this (SocketListenerObj.set_socket k);
  do o <- readSocketListener this;
  do _ <- addListeners this (SocketListenerObj.callbacks o);
  addListeners this (Some [("close", ReconnectClosure this)]).

(** For a URL the platform rejects, [new WebSocket(this.url)] throws inside
    [initConnection], after its console entry and before anything else; the
    exception leaves the constructor, the instance is never handed to the
    page and is not kept in the store. *)
Definition constructor `{Platform} (url : string)
    (callbacks : option (list (string * Fn))) : Js nat :=
  fun w =>
    let this := length (socketListeners w) in
    if acceptsUrl url then
      (do _ <- initConnection this; ret this)
        (with_socketListeners
           (socketListeners w ++
              [SocketListenerObj.mk url callbacks 10 None]) w)
    else
      (do _ <- emit (Console (DebugConnecting url)); throw DOMException) w.

Definition close (this : nat) : Js unit :=
  do o <- readSocketListener this;
  match SocketListenerObj.socket o with
  | Some k => socketClose k
  | None => ret tt
  end.

(** The body of the function under "close" in [initConnection]. *)
Definition reconnect (this : nat) : Js unit :=
  do o <- readSocketListener this;
  do _ <- emit (Console (DebugClosed (SocketListenerObj.url o)
                                     (SocketListenerObj.closed_repeat_delay o)));
  setTimeout (BoundInitConnection this) (SocketListenerObj.closed_repeat_delay o * 1000).

End SocketListener.

(** ** class StateListener *)

(** Own properties of an object, first binding of a name. *)
Fixpoint lookupField (name : string) (fields : list (string * JsValue)) : option JsValue :=
  match fields with
  | [] => None
  | (k, v) :: rest => if String.eqb k name then Some v else lookupField name rest
  end.

(** [v.name] for the names read here ([event], [data]), which no built-in
    prototype defines: the own property of an object, undefined on any other
    value but [null] and [undefined], where the access throws. *)
Definition getProperty (v : JsValue) (name : string) : Js JsValue :=
  match v with
  | JObject fields =>
      ret (match lookupField name fields with Some x => x | None => JUndefined end)
  | JNull | JUndefined => throw TypeError
  | _ => ret JUndefined
  end.

(** [v === str] for a string literal. *)
Definition strictEqString (v : JsValue) (str : string) : bool :=
  match v with
  | JString x => String.eqb x str
  | _ => false
  end.

(** Calling a function of the page. *)
Definition callPage (f : nat) (arg : Arg) : Js unit := emit (Called f arg).

Module StateListener.
Section WithPlatform.
Context `{Platform}.

Definition constructor (url : string) (stateChangeCallback : option nat) : Js nat :=
  fun w =>
    (Normal (length (stateListeners w)),
     with_stateListeners
       (stateListeners w ++
          [StateListenerObj.mk url stateChangeCallback (JObject []) None]) w).

Definition run (this : nat) : Js unit :=
  do o <- readStateListener this;
  do l <- SocketListener.constructor (StateListenerObj.url o)
            (Some [("open", RunClosure this "open");
                   ("close", RunClosure this "close");
                   ("message", RunClosure this "message")]);
  writeStateListener this (StateListenerObj.set_s l).

Definition handleStateUpdate (this : nat) (state : JsValue) : Js unit :=
  do _ <- writeStateListener this (StateListenerObj.set_state state);
  do o <- readStateListener this;
  match StateListenerObj.stateChangeCallback o with
  | Some f => callPage f (ArgValue state)
  | None => emit (Console (InfoNoCallback state))
  end.

Definition parse (text : string) : Js JsValue :=
  do _ <- emit (Parsed text);
  match JSON_parse text with
  | Some v => ret v
  | None => throw SyntaxError
  end.

(** In the "close" branch the source calls the bare name
    [handleStateUpdate], not [this.handleStateUpdate]: no binding of that
    name is in scope, so evaluating it throws a ReferenceError. *)
Definition genericEventListener (this : nat) (type : string) (event : Event) : Js unit :=
  if String.eqb type "message" && String.eqb (eventType event) "message" then
    do json <- parse (data event);
    do tag <- getProperty json "event";
    if strictEqString tag "state" then
      do payload <- getProperty json "data";
      handleStateUpdate this payload
    else ret tt
  else if String.eqb type "close" then
    throw ReferenceError
  else ret tt.

End WithPlatform.
End StateListener.

(** ** The event loop *)
Module Browser.
Section WithPlatform.
Context `{Platform}.

Definition callFn (f : Fn) (event : Event) : Js unit :=
  match f with
  | PageFn id => callPage id (ArgEvent event)
  | RunClosure self type => StateListener.genericEventListener self type event
  | ReconnectClosure self => SocketListener.reconnect self
  end.

(** The listener [function(event) { callback(event); }] of addListeners,
    [callback] being the variable of the scope it was created in. *)
Definition listener (scope : nat) (event : Event) : Js unit :=
  fun w => match scopes w !! scope with
           | Some (Some f) => callFn f event w
           | _ => (Throw TypeError, w)
           end.

(** An exception escaping a callback is reported and goes no further. *)
Definition reported (c : Js unit) : Js unit :=
  fun w => match c w with
           | (Normal _, w') => (Normal tt, w')
           | (Throw e, w') => (Normal tt, with_trace (trace w' ++ [Uncaught e]) w')
           end.

(** The scopes of the listeners registered for [type], in order. *)
Fixpoint listening (type : string) (ls : list (string * nat)) : list nat :=
  match ls with
  | [] => []
  | (t, scope) :: rest =>
      if String.eqb t type then scope :: listening type rest else listening type rest
  end.

(** The event [event] arrives at socket [k]. *)
Definition dispatchEvent (k : nat) (event : Event) : Js unit :=
  fun w => match sockets w !! k with
           | Some ws =>
               forIn (listening (type event) (listeners ws))
                     (fun scope => reported (listener scope event)) w
           | None => (Throw TypeError, w)
           end.

(** The pending timer number [i] expires. *)
Definition fireTimer (i : nat) : Js unit :=
  fun w => match timers w !! i with
           | Some t =>
               reported (match handler t with
                         | BoundInitConnection self => SocketListener.initConnection self
                         end)
                        (with_timers (delete i (timers w)) w)
           | None => (Normal tt, w)
           end.

End WithPlatform.
End Browser.

(** * Vocabulary of the properties *)

(** ** What the methods leave behind *)

(** The function every listener of one addListeners activation calls once
    the loop is over: the last one assigned to [callback]. *)
Definition lastCallback (props : list (string * Fn)) : option Fn := snd <$> last props.

(** The world [initConnection] leaves: a fresh socket to the URL of the
    instance becomes its [socket]; it carries one listener per property of
    [callbacks], all on one scope, and after them the reconnecting "close"
    listener on a scope of its own. *)
Definition connected (this : nat) (o : SocketListenerObj.t) (w : World) : World :=
  let k := length (sockets w) in
  let n := length (scopes w) in
  match SocketListenerObj.callbacks o with
  | Some props =>
      {| stateListeners := stateListeners w;
         socketListeners := <[this := SocketListenerObj.set_socket k o]> (socketListeners w);
         sockets := sockets w ++
           [{| ws_url := SocketListenerObj.url o;
               listeners := map (fun p => (p.1, n)) props ++ [("close", S n)];
               closeCalled := false |}];
         scopes := scopes w ++ [lastCallback props; Some (ReconnectClosure this)];
         timers := timers w;
         trace := trace w ++ [Console (DebugConnecting (SocketListenerObj.url o))] |}
  | None =>
      {| stateListeners := stateListeners w;
         socketListeners := <[this := SocketListenerObj.set_socket k o]> (socketListeners w);
         sockets := sockets w ++
           [{| ws_url := SocketListenerObj.url o;
               listeners := [("close", n)];
               closeCalled := false |}];
         scopes := scopes w ++ [Some (ReconnectClosure this)];
         timers := timers w;
         trace := trace w ++ [Console (DebugConnecting (SocketListenerObj.url o));
                              Console ErrorNoCallbacks] |}
  end.

(** [connection w] is the part of the world the sockets live in; event
    handlers other than the reconnecting one do not touch it. *)
Definition connection (w : World) :=
  (socketListeners w, sockets w, scopes w).

(** [c] changes neither the connection part nor the timers. *)
Definition quiet {A} (c : Js A) : Prop :=
  forall w, connection (snd (c w)) = connection w /\ timers (snd (c w)) = timers w.

(** The timer the listener on [scope] sets when it is called. *)
Definition scheduledBy (w : World) (scope : nat) : list Timer :=
  match scopes w !! scope with
  | Some (Some (ReconnectClosure l)) =>
      match socketListeners w !! l with
      | Some o => [{| handler := BoundInitConnection l;
                      timeout := SocketListenerObj.closed_repeat_delay o * 1000 |}]
      | None => []
      end
  | _ => []
  end.

(** ** Well-connected and reachable worlds *)

(** Functions a caller of the class can hand over: the reconnecting closure
    exists only inside [initConnection]. *)
Definition callerFn (f : Fn) : Prop :=
  match f with ReconnectClosure _ => False | _ => True end.
Definition callerMap (callbacks : option (list (string * Fn))) : Prop :=
  match callbacks with
  | Some props => Forall (fun p => callerFn p.2) props
  | None => True
  end.

Definition reconnectOf (sc : list (option Fn)) (scope : nat) : option nat :=
  match sc !! scope with
  | Some (Some (ReconnectClosure l)) => Some l
  | _ => None
  end.

(** The SocketListeners whose reconnecting closure a "close" event on these
    listeners calls, one entry per call. *)
Definition reconnectors (sc : list (option Fn)) (ls : list (string * nat)) : list nat :=
  omap (reconnectOf sc) (Browser.listening "close" ls).

Definition goodListener (w : World) (l : nat) (o : SocketListenerObj.t) : Prop :=
  SocketListenerObj.closed_repeat_delay o = 10%Z /\
  callerMap (SocketListenerObj.callbacks o) /\
  exists k ws,
    SocketListenerObj.socket o = Some k /\
    sockets w !! k = Some ws /\
    reconnectors (scopes w) (listeners ws) = [l].

Definition scopesValid (w : World) : Prop :=
  forall k ws, sockets w !! k = Some ws ->
               Forall (fun p => p.2 < length (scopes w)) (listeners ws).

Record wellConnected (w : World) : Prop := {
  wc_scopes : scopesValid w;
  wc_listener : forall l o, socketListeners w !! l = Some o -> goodListener w l o
}.

Section Steps.
Context `{Platform}.

(** What can happen next: the page creates an object or calls a method of
    one it holds, an event arrives at a socket, a timer expires. *)
Inductive step (w : World) : World -> Prop :=
| step_new_SocketListener url callbacks :
    callerMap callbacks ->
    step w (snd (SocketListener.constructor url callbacks w))
| step_addListeners this callbacks :
    is_Some (socketListeners w !! this) ->
    callerMap callbacks ->
    step w (snd (SocketListener.addListeners this callbacks w))
| step_close this :
    is_Some (socketListeners w !! this) ->
    step w (snd (SocketListener.close this w))
| step_new_StateListener url callback :
    step w (snd (StateListener.constructor url callback w))
| step_run this :
    is_Some (stateListeners w !! this) ->
    step w (snd (StateListener.run this w))
| step_event k event :
    is_Some (sockets w !! k) ->
    step w (snd (Browser.dispatchEvent k event w))
| step_timer i :
    step w (snd (Browser.fireTimer i w)).

Inductive reachable : World -> Prop :=
| reachable_empty : reachable emptyWorld
| reachable_step w w' : reachable w -> step w w' -> reachable w'.

(** A "close" event at the socket of [l], then the timer set last expires. *)
Definition closeAndRetry (event : Event) (l : nat) (w : World) : World :=
  match socketListeners w !! l with
  | Some o =>
      match SocketListenerObj.socket o with
      | Some k =>
          snd (Browser.fireTimer (length (timers w)) (snd (Browser.dispatchEvent k event w)))
      | None => w
      end
  | None => w
  end.

Fixpoint retries (event : Event) (l : nat) (n : nat) (w : World) : World :=
  match n with
  | 0 => w
  | S n => closeAndRetry event l (retries event l n w)
  end.

End Steps.

(** ** Sample worlds *)

(** A finite piece of a JSON parser, enough to run the examples: the text
    [{"event":"state","data":{"phase":"ready"}}] and the text
    [{"event":"tick","data":1}]; every other text is rejected. *)
Definition quoted (str : string) : string :=
  String "034"%char (str +:+ String "034"%char EmptyString).
Definition stateMessage : string :=
  "{" +:+ quoted "event" +:+ ":" +:+ quoted "state" +:+ "," +:+ quoted "data" +:+ ":{"
      +:+ quoted "phase" +:+ ":" +:+ quoted "ready" +:+ "}}".
Definition tickMessage : string :=
  "{" +:+ quoted "event" +:+ ":" +:+ quoted "tick" +:+ "," +:+ quoted "data" +:+ ":1}".
Definition samplePlatform : Platform :=
  {| JSON_parse := fun text =>
       if String.eqb text stateMessage then
         Some (JObject [("event", JString "state");
                        ("data", JObject [("phase", JString "ready")])])
       else if String.eqb text tickMessage then
         Some (JObject [("event", JString "tick"); ("data", JNumber "1")])
       else None;
     acceptsUrl := plainUrl;
     accepts_plain := fun _ plain => plain |}.

(** The world after [var s = new StateListener("wss://x/y", f7); s.run();]. *)
Definition runningWorld : World :=
  Eval vm_compute in
    snd ((do this <- @StateListener.constructor "wss://x/y" (Some 7);
          @StateListener.run samplePlatform this) emptyWorld).

Definition messageEvent (text : string) : Event := {| type := "message"; data := text |}.
Definition closeEvent : Event := {| type := "close"; data := EmptyString |}.
Definition openEvent : Event := {| type := "open"; data := EmptyString |}.

(** The world after
    [new SocketListener("wss://x", {"close": f1, "message": f2})]. *)
Definition connectedWorld : World :=
  Eval vm_compute in
    snd (@SocketListener.constructor samplePlatform "wss://x"
           (Some [("close", PageFn 1); ("message", PageFn 2)]) emptyWorld).

Definition connectedListener : SocketListenerObj.t :=
  SocketListenerObj.mk "wss://x" (Some [("close", PageFn 1); ("message", PageFn 2)]) 10 (Some 0).

(** ** Notifications, and what stays local *)

(** What [handleStateUpdate] lets the page see of the value [v]: a call of
    the state-change callback, or the console entry when there is none. *)
Definition notification (o : StateListenerObj.t) (v : JsValue) : Effect :=
  match StateListenerObj.stateChangeCallback o with
  | Some f => Called f (ArgValue v)
  | None => Console (InfoNoCallback v)
  end.

(** [c] creates no StateListener and writes to none but [this]. *)
Definition localTo {A} (this : nat) (c : Js A) : Prop :=
  forall w,
    stateListeners (snd (c w)) = stateListeners w \/
    exists x, stateListeners (snd (c w)) = <[this := x]> (stateListeners w).

(** A parsed message the "message" branch drops without a call: any value
    that is not an object, and an object without an [event] property. *)
Definition withoutEvent (v : JsValue) : Prop :=
  match v with
  | JObject fields => lookupField "event" fields = None
  | JNull | JUndefined => False
  | _ => True
  end.

(** ** The wiring of [run] *)

(** The map [run] hands to the SocketListener. *)
Definition runCallbacks (this : nat) : list (string * Fn) :=
  [("open", RunClosure this "open");
   ("close", RunClosure this "close");
   ("message", RunClosure this "message")].

(** The listeners [initConnection] puts on a socket for that map, the
    variable [callback] being scope [n]. *)
Definition runListeners (n : nat) : list (string * nat) :=
  [("open", n); ("close", n); ("message", n); ("close", S n)].

(** SocketListener [l], made by [run] of StateListener [this], is connected
    through socket [k]. *)
Definition wired (w : World) (this l k n : nat) (ol : SocketListenerObj.t) : Prop :=
  socketListeners w !! l = Some ol /\
  SocketListenerObj.socket ol = Some k /\
  SocketListenerObj.closed_repeat_delay ol = 10%Z /\
  SocketListenerObj.callbacks ol = Some (runCallbacks this) /\
  (exists ws, sockets w !! k = Some ws /\ listeners ws = runListeners n) /\
  scopes w !! n = Some (Some (RunClosure this "message")) /\
  scopes w !! S n = Some (Some (ReconnectClosure l)).

(** ** What stays true of instances and timers *)

(** Every SocketListener has a socket, and it leads to the URL of the
    instance. *)
Definition urlBound (w : World) : Prop :=
  forall l o, socketListeners w !! l = Some o ->
    exists k ws,
      SocketListenerObj.socket o = Some k /\
      sockets w !! k = Some ws /\
      ws_url ws = SocketListenerObj.url o.

(** Every pending timer is a call of [initConnection] on an existing
    SocketListener, 10000 milliseconds after it was set. *)
Definition timersValid (w : World) : Prop :=
  Forall (fun t => timeout t = 10000%Z /\
                   match handler t with
                   | BoundInitConnection l => l < length (socketListeners w)
                   end) (timers w).

Record steady (w : World) : Prop := {
  st_url : urlBound w;
  st_timers : timersValid w
}.

(** ** More sample worlds *)

(** The text [{"event":"state"}], and a parser that knows it, [null] and
    [5] and rejects every other text. *)
Definition bareStateMessage : string :=
  "{" +:+ quoted "event" +:+ ":" +:+ quoted "state" +:+ "}".
Definition edgePlatform : Platform :=
  {| JSON_parse := fun text =>
       if String.eqb text bareStateMessage then Some (JObject [("event", JString "state")])
       else if String.eqb text "null" then Some JNull
       else if String.eqb text "5" then Some (JNumber "5")
       else None;
     acceptsUrl := plainUrl;
     accepts_plain := fun _ plain => plain |}.

(** The world after [var s = new StateListener("wss://x/y", f7);], and the
    object it holds before and after [s.run();]. *)
Definition constructedWorld : World :=
  Eval vm_compute in snd (@StateListener.constructor "wss://x/y" (Some 7) emptyWorld).
Definition constructedListener : StateListenerObj.t :=
  StateListenerObj.mk "wss://x/y" (Some 7) (JObject []) None.
Definition runningListener : StateListenerObj.t :=
  StateListenerObj.mk "wss://x/y" (Some 7) (JObject []) (Some 0).

(** The socket of [connectedWorld]. *)
Definition connectedSocket : WebSocket :=
  {| ws_url := "wss://x";
     listeners := [("close", 0); ("message", 0); ("close", 1)];
     closeCalled := false |}.

(** [connectedWorld] after a "close" event at its socket. *)
Definition closedWorld : World :=
  Eval vm_compute in snd (@Browser.dispatchEvent samplePlatform 0 closeEvent connectedWorld).

(** * Properties *)

(** ** Running a computation *)

Lemma bind_Normal {A B} (c : Js A) (k : A -> Js B) (w w' : World) (a : A) :
  c w = (Normal a, w') -> bind c k w = k a w'.
Proof. intros Hc. unfold bind. now rewrite Hc. Qed.

Lemma bind_Throw {A B} (c : Js A) (k : A -> Js B) (w w' : World) (e : JsError) :
  c w = (Throw e, w') -> bind c k w = (Throw e, w').
Proof. intros Hc. unfold bind. now rewrite Hc. Qed.

Lemma lookup_snoc {A} (l : list A) (x : A) : (l ++ [x]) !! length l = Some x.
Proof. rewrite lookup_app_r by lia. now rewrite Nat.sub_diag. Qed.

Lemma insert_snoc {A} (l : list A) (x y : A) : <[length l := y]> (l ++ [x]) = l ++ [y].
Proof.
  rewrite insert_app_r_alt by lia. now rewrite Nat.sub_diag.
Qed.

Lemma world_eq (w1 w2 : World) :
  stateListeners w1 = stateListeners w2 ->
  socketListeners w1 = socketListeners w2 ->
  sockets w1 = sockets w2 ->
  scopes w1 = scopes w2 ->
  timers w1 = timers w2 ->
  trace w1 = trace w2 ->
  w1 = w2.
Proof. destruct w1, w2; simpl; intros; subst; reflexivity. Qed.

Ltac world_fields :=
  cbn [stateListeners socketListeners sockets scopes timers trace
       with_stateListeners with_socketListeners with_sockets with_scopes
       with_timers with_trace].

(** ** StateListener.genericEventListener *)
Section GenericEventListener.
Context `{Platform}.

Lemma parse_Some (text : string) (v : JsValue) (w : World) :
  JSON_parse text = Some v ->
  StateListener.parse text w = (Normal v, with_trace (trace w ++ [Parsed text]) w).
Proof.
  intros Hp. unfold StateListener.parse.
  erewrite bind_Normal by reflexivity. now rewrite Hp.
Qed.

Lemma parse_None (text : string) (w : World) :
  JSON_parse text = None ->
  StateListener.parse text w = (Throw SyntaxError, with_trace (trace w ++ [Parsed text]) w).
Proof.
  intros Hp. unfold StateListener.parse.
  erewrite bind_Normal by reflexivity. now rewrite Hp.
Qed.

Lemma getProperty_object (name : string) (fields : list (string * JsValue)) (w : World) :
  getProperty (JObject fields) name w =
    (Normal (match lookupField name fields with Some x => x | None => JUndefined end), w).
Proof. reflexivity. Qed.

Lemma strictEqString_true (v : JsValue) (str : string) :
  strictEqString v str = true <-> v = JString str.
Proof.
  destruct v; simpl; try (split; [discriminate | congruence]).
  rewrite String.eqb_eq. split; congruence.
Qed.

Lemma strictEqString_false (v : JsValue) (str : string) :
  v <> JString str -> strictEqString v str = false.
Proof.
  intros Hne. destruct (strictEqString v str) eqn:E; [|reflexivity].
  apply strictEqString_true in E. contradiction.
Qed.

Lemma handleStateUpdate_run (this : nat) (o : StateListenerObj.t) (X : JsValue) (w : World) :
  stateListeners w !! this = Some o ->
  StateListener.handleStateUpdate this X w =
    (Normal tt,
     with_trace
       (trace w ++ [match StateListenerObj.stateChangeCallback o with
                    | Some f => Called f (ArgValue X)
                    | None => Console (InfoNoCallback X)
                    end])
       (with_stateListeners (<[this := StateListenerObj.set_state X o]> (stateListeners w)) w)).
Proof.
  intros Hthis.
  unfold StateListener.handleStateUpdate, bind, writeStateListener, readStateListener.
  rewrite Hthis. cbn [stateListeners with_stateListeners].
  rewrite list_lookup_insert_eq by (eapply lookup_lt_Some; eassumption).
  cbn [StateListenerObj.stateChangeCallback StateListenerObj.set_state].
  destruct (StateListenerObj.stateChangeCallback o); reflexivity.
Qed.

(** The "message" branch: what the method does when both its [type] and
    the event's are "message". *)
Lemma genericEventListener_message (this : nat) (event : Event) :
  type event = "message" ->
  StateListener.genericEventListener this "message" event =
    (do json <- StateListener.parse (data event);
     do tag <- getProperty json "event";
     if strictEqString tag "state" then
       do payload <- getProperty json "data";
       StateListener.handleStateUpdate this payload
     else ret tt).
Proof.
  intros Hty. unfold StateListener.genericEventListener.
  rewrite Hty, String.eqb_refl. reflexivity.
Qed.

(** C1: a message whose text parses to an object with [event] "state" and
    [data] X, dispatched with type "message", makes one call of the
    state-change callback, with X (a console entry when the callback is
    undefined), and leaves X as the state of the instance. *)
Theorem state_message_updates
    (w : World) (this : nat) (o : StateListenerObj.t) (event : Event)
    (fields : list (string * JsValue)) (X : JsValue) :
  stateListeners w !! this = Some o ->
  type event = "message" ->
  JSON_parse (data event) = Some (JObject fields) ->
  lookupField "event" fields = Some (JString "state") ->
  lookupField "data" fields = Some X ->
  exists w',
    StateListener.genericEventListener this "message" event w = (Normal tt, w') /\
    trace w' = trace w ++ [Parsed (data event);
                           match StateListenerObj.stateChangeCallback o with
                           | Some f => Called f (ArgValue X)
                           | None => Console (InfoNoCallback X)
                           end] /\
    exists o', stateListeners w' !! this = Some o' /\ StateListenerObj.state o' = X.
Proof.
  intros Hthis Hty Hparse Hevent Hdata.
  rewrite genericEventListener_message by exact Hty.
  erewrite bind_Normal by (apply parse_Some; exact Hparse).
  erewrite bind_Normal by apply getProperty_object.
  rewrite Hevent. cbn [strictEqString]. rewrite String.eqb_refl.
  erewrite bind_Normal by apply getProperty_object.
  rewrite Hdata, (handleStateUpdate_run this o X) by exact Hthis.
  eexists. split; [reflexivity|]. cbn [trace with_trace with_stateListeners stateListeners].
  split; [now rewrite <- app_assoc|].
  exists (StateListenerObj.set_state X o). split; [|reflexivity].
  apply list_lookup_insert_eq. eapply lookup_lt_Some; eassumption.
Qed.

(** C2: dispatched with type "close", the method throws a ReferenceError at
    the bare name [handleStateUpdate] and leaves the world as it was: the
    state-change callback is not called and "closed" is not stored. *)
Theorem close_throws_reference_error (w : World) (this : nat) (event : Event) :
  StateListener.genericEventListener this "close" event w = (Throw ReferenceError, w).
Proof. reflexivity. Qed.

(** C6: a message whose text parses to an object with an [event] other than
    "state" is parsed and dropped: no call is made and every StateListener
    keeps its state. *)
Theorem other_event_ignored
    (w : World) (this : nat) (event : Event)
    (fields : list (string * JsValue)) (tag : JsValue) :
  type event = "message" ->
  JSON_parse (data event) = Some (JObject fields) ->
  lookupField "event" fields = Some tag ->
  tag <> JString "state" ->
  StateListener.genericEventListener this "message" event w =
    (Normal tt, with_trace (trace w ++ [Parsed (data event)]) w).
Proof.
  intros Hty Hparse Hevent Hne.
  rewrite genericEventListener_message by exact Hty.
  erewrite bind_Normal by (apply parse_Some; exact Hparse).
  erewrite bind_Normal by apply getProperty_object.
  rewrite Hevent, strictEqString_false by exact Hne. reflexivity.
Qed.

(** C7: a message whose text is not JSON makes the method throw the
    parser's SyntaxError, which nothing in the method catches; no call is
    made and every StateListener keeps its state. *)
Theorem malformed_message_throws (w : World) (this : nat) (event : Event) :
  type event = "message" ->
  JSON_parse (data event) = None ->
  StateListener.genericEventListener this "message" event w =
    (Throw SyntaxError, with_trace (trace w ++ [Parsed (data event)]) w).
Proof.
  intros Hty Hparse.
  rewrite genericEventListener_message by exact Hty.
  erewrite bind_Throw by (apply parse_None; exact Hparse). reflexivity.
Qed.

(** C10: dispatched with type "open", or with type "message" and an event
    whose own type is not "message", the method returns and the world is
    the one it started from: nothing parsed, nothing called, no state
    written. *)
Theorem open_and_foreign_events_ignored
    (w : World) (this : nat) (ty : string) (event : Event) :
  ty = "open" \/ (ty = "message" /\ type event <> "message") ->
  StateListener.genericEventListener this ty event w = (Normal tt, w).
Proof.
  intros [-> | [-> Hne]]; [reflexivity|].
  unfold StateListener.genericEventListener.
  apply String.eqb_neq in Hne. rewrite Hne, andb_false_r. reflexivity.
Qed.

End GenericEventListener.

Lemma state_message_updates_witness :
  exists w',
    @StateListener.genericEventListener samplePlatform 0 "message"
      (messageEvent stateMessage) runningWorld = (Normal tt, w') /\
    trace w' = trace runningWorld ++
                 [Parsed stateMessage;
                  Called 7 (ArgValue (JObject [("phase", JString "ready")]))] /\
    exists o', stateListeners w' !! 0 = Some o' /\
               StateListenerObj.state o' = JObject [("phase", JString "ready")].
Proof.
  exact (@state_message_updates samplePlatform runningWorld 0
           (StateListenerObj.mk "wss://x/y" (Some 7) (JObject []) (Some 0))
           (messageEvent stateMessage)
           [("event", JString "state"); ("data", JObject [("phase", JString "ready")])]
           (JObject [("phase", JString "ready")])
           eq_refl eq_refl eq_refl eq_refl eq_refl).
Defined.

Lemma tick_not_state : JString "tick" <> JString "state".
Proof. discriminate. Qed.

Lemma other_event_ignored_witness :
  @StateListener.genericEventListener samplePlatform 0 "message"
    (messageEvent tickMessage) runningWorld =
    (Normal tt, with_trace (trace runningWorld ++ [Parsed tickMessage]) runningWorld).
Proof.
  exact (@other_event_ignored samplePlatform runningWorld 0 (messageEvent tickMessage)
           [("event", JString "tick"); ("data", JNumber "1")] (JString "tick")
           eq_refl eq_refl eq_refl tick_not_state).
Defined.

Lemma malformed_message_throws_witness :
  @StateListener.genericEventListener samplePlatform 0 "message"
    (messageEvent "{") runningWorld =
    (Throw SyntaxError, with_trace (trace runningWorld ++ [Parsed "{"]) runningWorld).
Proof.
  exact (@malformed_message_throws samplePlatform runningWorld 0 (messageEvent "{")
           eq_refl eq_refl).
Defined.

Lemma open_and_foreign_events_ignored_witness :
  @StateListener.genericEventListener samplePlatform 0 "message" closeEvent runningWorld =
    (Normal tt, runningWorld).
Proof.
  refine (@open_and_foreign_events_ignored samplePlatform runningWorld 0 "message"
            closeEvent (or_intror (conj eq_refl _))).
  discriminate.
Defined.

(** ** SocketListener.addListeners and initConnection *)

Lemma attach_nil (ws : WebSocket) : attach ws [] = ws.
Proof. destruct ws. unfold attach. simpl. now rewrite app_nil_r. Qed.

Lemma attach_attach (ws : WebSocket) (l1 l2 : list (string * nat)) :
  attach (attach ws l1) l2 = attach ws (l1 ++ l2).
Proof. unfold attach. simpl. now rewrite app_assoc. Qed.

Lemma assign_all (l : list (option Fn)) (x : option Fn) (props : list (string * Fn)) :
  foldl (fun acc p => <[length l := Some p.2]> acc) (l ++ [x]) props =
    l ++ [match last props with Some p => Some p.2 | None => x end].
Proof.
  revert x. induction props as [|p rest IH]; intros x; [reflexivity|].
  simpl. rewrite insert_snoc, IH, last_cons. now destruct (last rest).
Qed.

Section AddListeners.
Variables (this k : nat) (o : SocketListenerObj.t).
Hypothesis Hsocket : SocketListenerObj.socket o = Some k.

Lemma addListeners_loop (scope : nat) (props : list (string * Fn)) :
  forall (w : World) (ws : WebSocket),
    socketListeners w !! this = Some o ->
    sockets w !! k = Some ws ->
    forIn props (fun '(prop, f) =>
        do _ <- assignScope scope f;
        do o <- readSocketListener this;
        match SocketListenerObj.socket o with
        | Some k => addEventListener k prop scope
        | None => throw TypeError
        end) w =
      (Normal tt,
       with_sockets (<[k := attach ws (map (fun p => (p.1, scope)) props)]> (sockets w))
         (with_scopes (foldl (fun acc p => <[scope := Some p.2]> acc) (scopes w) props) w)).
Proof.
  induction props as [|[prop f] rest IH]; intros w ws Hthis Hk.
  - simpl. unfold ret. f_equal. apply world_eq; world_fields; try reflexivity.
    now rewrite attach_nil, list_insert_id.
  - cbn [forIn]. erewrite bind_Normal; cycle 1.
    { erewrite bind_Normal by reflexivity.
      erewrite bind_Normal by (unfold readSocketListener; world_fields; now rewrite Hthis).
      rewrite Hsocket. unfold addEventListener. world_fields. now rewrite Hk. }
    erewrite IH; cycle 1.
    { world_fields. exact Hthis. }
    { world_fields. apply list_lookup_insert_eq. eapply lookup_lt_Some; eassumption. }
    f_equal. apply world_eq; world_fields; try reflexivity.
    now rewrite list_insert_insert_eq, attach_attach.
Qed.

Lemma addListeners_Some (props : list (string * Fn)) (w : World) (ws : WebSocket) :
  socketListeners w !! this = Some o ->
  sockets w !! k = Some ws ->
  SocketListener.addListeners this (Some props) w =
    (Normal tt,
     with_sockets
       (<[k := attach ws (map (fun p => (p.1, length (scopes w))) props)]> (sockets w))
       (with_scopes (scopes w ++ [lastCallback props]) w)).
Proof.
  intros Hthis Hk. unfold SocketListener.addListeners.
  erewrite bind_Normal by reflexivity.
  erewrite addListeners_loop by (world_fields; eassumption).
  f_equal. apply world_eq; world_fields; try reflexivity.
  rewrite assign_all. unfold lastCallback. now destruct (last props).
Qed.

End AddListeners.

Lemma addListeners_None (this : nat) (w : World) :
  SocketListener.addListeners this None w =
    (Normal tt, with_trace (trace w ++ [Console ErrorNoCallbacks]) w).
Proof. reflexivity. Qed.

Lemma initConnection_run (this : nat) (o : SocketListenerObj.t) (w : World) :
  socketListeners w !! this = Some o ->
  SocketListener.initConnection this w = (Normal tt, connected this o w).
Proof.
  intros Hthis. unfold SocketListener.initConnection.
  pose proof (lookup_lt_Some _ _ _ Hthis) as Hlt.
  erewrite bind_Normal by (unfold readSocketListener; now rewrite Hthis).
  erewrite bind_Normal by reflexivity.
  erewrite bind_Normal by reflexivity.
  erewrite bind_Normal by
    (unfold writeSocketListener; world_fields; now rewrite Hthis).
  erewrite bind_Normal by
    (unfold readSocketListener; world_fields; now rewrite list_lookup_insert_eq).
  set (k := length (sockets w)).
  set (o' := SocketListenerObj.set_socket k o).
  assert (Hk : SocketListenerObj.socket o' = Some k) by reflexivity.
  unfold connected. fold k.
  replace (SocketListenerObj.callbacks o') with (SocketListenerObj.callbacks o) by reflexivity.
  destruct (SocketListenerObj.callbacks o) as [props|].
  - erewrite bind_Normal; cycle 1.
    { eapply (addListeners_Some this k o' Hk).
      - world_fields. now apply list_lookup_insert_eq.
      - world_fields. apply lookup_snoc. }
    erewrite (addListeners_Some this k o' Hk); cycle 1.
    { world_fields. now apply list_lookup_insert_eq. }
    { world_fields. subst k. rewrite insert_snoc. apply lookup_snoc. }
    f_equal. apply world_eq; world_fields; try reflexivity.
    + subst k. rewrite !insert_snoc. unfold attach. simpl.
      now rewrite length_app, Nat.add_1_r.
    + now rewrite <- app_assoc.
  - erewrite bind_Normal by apply addListeners_None.
    erewrite (addListeners_Some this k o' Hk); cycle 1.
    { world_fields. now apply list_lookup_insert_eq. }
    { world_fields. apply lookup_snoc. }
    f_equal. apply world_eq; world_fields; try reflexivity.
    + subst k. now rewrite insert_snoc.
    + now rewrite <- app_assoc.
Qed.

Section Constructing.
Context `{Platform}.

(** [new SocketListener(url, callbacks)] for a URL the platform accepts. *)
Lemma constructor_run (url : string) (callbacks : option (list (string * Fn))) (w : World) :
  acceptsUrl url = true ->
  SocketListener.constructor url callbacks w =
    (Normal (length (socketListeners w)),
     connected (length (socketListeners w)) (SocketListenerObj.mk url callbacks 10 None)
       (with_socketListeners
          (socketListeners w ++ [SocketListenerObj.mk url callbacks 10 None]) w)).
Proof.
  intros Hurl. unfold SocketListener.constructor. rewrite Hurl.
  erewrite bind_Normal by (apply initConnection_run; world_fields; apply lookup_snoc).
  reflexivity.
Qed.

(** And for one it rejects: the console entry of [initConnection], then the
    exception of [new WebSocket]. *)
Lemma constructor_rejected (url : string) (callbacks : option (list (string * Fn)))
    (w : World) :
  acceptsUrl url = false ->
  SocketListener.constructor url callbacks w =
    (Throw DOMException, with_trace (trace w ++ [Console (DebugConnecting url)]) w).
Proof.
  intros Hurl. unfold SocketListener.constructor. now rewrite Hurl.
Qed.

(** ** StateListener: constructor and run *)

(** C5: [new StateListener(url, callback)] adds one object holding the URL,
    the callback, an empty object as state and no SocketListener, and leaves
    every socket, SocketListener, timer and the trace as they were.
    [run()] on it then creates one SocketListener for the URL, stored in
    [s], whose constructor has opened one socket to the URL; for a URL the
    platform rejects, [run()] throws the exception of [new WebSocket]
    instead, after the console entry, and [s] stays undefined. *)
Theorem construct_then_run (url : string) (callback : option nat) (w : World) :
  let this := length (stateListeners w) in
  let w1 := with_stateListeners
              (stateListeners w ++ [StateListenerObj.mk url callback (JObject []) None]) w in
  StateListener.constructor url callback w = (Normal this, w1) /\
  if acceptsUrl url then
    exists w2,
      StateListener.run this w1 = (Normal tt, w2) /\
      stateListeners w2 !! this =
        Some (StateListenerObj.mk url callback (JObject [])
                (Some (length (socketListeners w)))) /\
      socketListeners w2 =
        socketListeners w ++
          [SocketListenerObj.mk url
             (Some [("open", RunClosure this "open");
                    ("close", RunClosure this "close");
                    ("message", RunClosure this "message")])
             10 (Some (length (sockets w)))] /\
      sockets w2 =
        sockets w ++
          [{| ws_url := url;
              listeners := [("open", length (scopes w)); ("close", length (scopes w));
                            ("message", length (scopes w)); ("close", S (length (scopes w)))];
              closeCalled := false |}] /\
      timers w2 = timers w
  else
    StateListener.run this w1 =
      (Throw DOMException, with_trace (trace w1 ++ [Console (DebugConnecting url)]) w1).
Proof.
  intros this w1. split; [reflexivity|].
  unfold StateListener.run.
  subst this w1.
  erewrite bind_Normal by (unfold readStateListener; world_fields; now rewrite lookup_snoc).
  cbn [StateListenerObj.url].
  destruct (acceptsUrl url) eqn:Hurl.
  - erewrite bind_Normal by (apply constructor_run; exact Hurl).
    unfold writeStateListener, connected.
    cbn [SocketListenerObj.callbacks SocketListenerObj.url].
    world_fields. rewrite lookup_snoc.
    eexists. split; [reflexivity|]. world_fields.
    repeat split.
    + now rewrite insert_snoc, lookup_snoc.
    + now rewrite insert_snoc.
  - erewrite bind_Throw by (apply constructor_rejected; exact Hurl).
    reflexivity.
Qed.

End Constructing.

(** ** What a computation leaves alone *)

Lemma quiet_ret {A} (a : A) : quiet (ret a).
Proof. intros w. split; reflexivity. Qed.

Lemma quiet_throw {A} (e : JsError) : quiet (@throw A e).
Proof. intros w. split; reflexivity. Qed.

Lemma quiet_emit (e : Effect) : quiet (emit e).
Proof. intros w. split; reflexivity. Qed.

Lemma quiet_bind {A B} (c : Js A) (k : A -> Js B) :
  quiet c -> (forall a, quiet (k a)) -> quiet (bind c k).
Proof.
  intros Hc Hk w. unfold bind. specialize (Hc w).
  destruct (c w) as [[a|e] w1]; simpl in Hc.
  - destruct (Hk a w1) as [H1 H2]. destruct Hc as [H3 H4]. split; congruence.
  - exact Hc.
Qed.

Lemma quiet_readStateListener (this : nat) : quiet (readStateListener this).
Proof.
  intros w. unfold readStateListener. destruct (stateListeners w !! this); split; reflexivity.
Qed.

Lemma quiet_writeStateListener (this : nat) (f : StateListenerObj.t -> StateListenerObj.t) :
  quiet (writeStateListener this f).
Proof.
  intros w. unfold writeStateListener. destruct (stateListeners w !! this); split; reflexivity.
Qed.

Lemma quiet_getProperty (v : JsValue) (name : string) : quiet (getProperty v name).
Proof. destruct v; simpl; auto using quiet_ret, quiet_throw. Qed.

Section Quiet.
Context `{Platform}.

Lemma quiet_handleStateUpdate (this : nat) (v : JsValue) :
  quiet (StateListener.handleStateUpdate this v).
Proof.
  unfold StateListener.handleStateUpdate.
  apply quiet_bind; [apply quiet_writeStateListener|intros _].
  apply quiet_bind; [apply quiet_readStateListener|intros o].
  destruct (StateListenerObj.stateChangeCallback o); apply quiet_emit.
Qed.

Lemma quiet_parse (text : string) : quiet (StateListener.parse text).
Proof.
  unfold StateListener.parse. apply quiet_bind; [apply quiet_emit|intros _].
  destruct (JSON_parse text); [apply quiet_ret|apply quiet_throw].
Qed.

Lemma quiet_genericEventListener (this : nat) (ty : string) (event : Event) :
  quiet (StateListener.genericEventListener this ty event).
Proof.
  unfold StateListener.genericEventListener.
  destruct (String.eqb ty "message" && String.eqb (type event) "message").
  - apply quiet_bind; [apply quiet_parse|intros json].
    apply quiet_bind; [apply quiet_getProperty|intros tag].
    destruct (strictEqString tag "state"); [|apply quiet_ret].
    apply quiet_bind; [apply quiet_getProperty|intros payload].
    apply quiet_handleStateUpdate.
  - destruct (String.eqb ty "close"); [apply quiet_throw|apply quiet_ret].
Qed.

End Quiet.

(** ** What an event schedules *)

Lemma scheduledBy_connection (w1 w2 : World) (scope : nat) :
  connection w1 = connection w2 -> scheduledBy w1 scope = scheduledBy w2 scope.
Proof.
  unfold connection, scheduledBy. intros Hc. injection Hc as -> _ ->. reflexivity.
Qed.

Section Dispatch.
Context `{Platform}.

Lemma listener_effect (scope : nat) (event : Event) (w : World) :
  exists w',
    Browser.reported (Browser.listener scope event) w = (Normal tt, w') /\
    connection w' = connection w /\
    timers w' = timers w ++ scheduledBy w scope.
Proof.
  unfold Browser.reported, Browser.listener, scheduledBy.
  destruct (scopes w !! scope) as [[f|]|] eqn:Hscope;
    try (eexists; split; [reflexivity|]; split; [reflexivity|];
         world_fields; now rewrite app_nil_r).
  destruct f as [id|self ty|l]; cbn [Browser.callFn].
  - eexists; split; [reflexivity|]; split; [reflexivity|].
    world_fields. now rewrite app_nil_r.
  - destruct (quiet_genericEventListener self ty event w) as [Hc Ht].
    destruct (StateListener.genericEventListener self ty event w) as [[[]|e] w1];
      simpl in Hc, Ht; (eexists; split; [reflexivity|]; split;
        [exact Hc || (unfold connection in *; world_fields; exact Hc)|]);
      world_fields; now rewrite app_nil_r.
  - unfold SocketListener.reconnect, bind, readSocketListener.
    destruct (socketListeners w !! l) as [o|].
    + eexists; split; [reflexivity|]; split; reflexivity.
    + eexists; split; [reflexivity|]; split; [reflexivity|].
      world_fields. now rewrite app_nil_r.
Qed.

Lemma dispatch_loop (event : Event) (scs : list nat) :
  forall w, exists w',
    forIn scs (fun scope => Browser.reported (Browser.listener scope event)) w =
      (Normal tt, w') /\
    connection w' = connection w /\
    timers w' = timers w ++ flat_map (scheduledBy w) scs.
Proof.
  induction scs as [|scope rest IH]; intros w.
  - exists w. simpl. now rewrite app_nil_r.
  - destruct (listener_effect scope event w) as (w1 & Hrun & Hc1 & Ht1).
    destruct (IH w1) as (w2 & Hrest & Hc2 & Ht2).
    exists w2. cbn [forIn flat_map]. erewrite bind_Normal by exact Hrun.
    split; [exact Hrest|]. split; [congruence|].
    rewrite Ht2, Ht1, <- app_assoc. f_equal. f_equal.
    apply flat_map_ext. intros a. now apply scheduledBy_connection.
Qed.

Lemma dispatchEvent_effect (k : nat) (ws : WebSocket) (event : Event) (w : World) :
  sockets w !! k = Some ws ->
  exists w',
    Browser.dispatchEvent k event w = (Normal tt, w') /\
    connection w' = connection w /\
    timers w' =
      timers w ++ flat_map (scheduledBy w) (Browser.listening (type event) (listeners ws)).
Proof.
  intros Hk. unfold Browser.dispatchEvent. rewrite Hk. apply dispatch_loop.
Qed.

End Dispatch.

(** ** The reconnecting listener is on every socket *)

Lemma omap_cons' {A B} (f : A -> option B) (x : A) (l : list A) :
  omap f (x :: l) = match f x with Some y => y :: omap f l | None => omap f l end.
Proof. reflexivity. Qed.

Lemma listening_app (ty : string) (l1 l2 : list (string * nat)) :
  Browser.listening ty (l1 ++ l2) = Browser.listening ty l1 ++ Browser.listening ty l2.
Proof.
  induction l1 as [|[t sc] rest IH]; [reflexivity|].
  simpl. destruct (String.eqb t ty); simpl; now rewrite IH.
Qed.

Lemma reconnectors_app (sc : list (option Fn)) (l1 l2 : list (string * nat)) :
  reconnectors sc (l1 ++ l2) = reconnectors sc l1 ++ reconnectors sc l2.
Proof. unfold reconnectors. now rewrite listening_app, omap_app. Qed.

Lemma reconnectors_more_scopes (sc extra : list (option Fn)) (ls : list (string * nat)) :
  Forall (fun p => p.2 < length sc) ls ->
  reconnectors (sc ++ extra) ls = reconnectors sc ls.
Proof.
  unfold reconnectors. induction 1 as [|[t n] rest Hn _ IH]; [reflexivity|].
  simpl in *. destruct (String.eqb t "close"); [|exact IH].
  rewrite !omap_cons', IH. unfold reconnectOf. now rewrite lookup_app_l.
Qed.

Lemma reconnectors_caller (sc : list (option Fn)) (n : nat) (props : list (string * Fn)) :
  reconnectOf sc n = None ->
  reconnectors sc (map (fun p => (p.1, n)) props) = [].
Proof.
  intros Hn. unfold reconnectors. induction props as [|[t f] rest IH]; [reflexivity|].
  simpl. destruct (String.eqb t "close"); [|exact IH]. now rewrite omap_cons', Hn, IH.
Qed.

Lemma lastCallback_caller (props : list (string * Fn)) (sc rest : list (option Fn)) :
  callerMap (Some props) ->
  reconnectOf (sc ++ lastCallback props :: rest) (length sc) = None.
Proof.
  intros Hc. unfold reconnectOf. rewrite list_lookup_middle by reflexivity.
  unfold lastCallback.
  destruct (last props) as [[t f]|] eqn:Hlast; [|reflexivity].
  simpl in *. apply last_Some in Hlast as [l' ->].
  apply Forall_app in Hc as [_ Hc]. inversion Hc as [|? ? Hf _]; subst.
  destruct f; simpl in Hf; [reflexivity|reflexivity|contradiction].
Qed.

Lemma scheduled_reconnectors (w : World) (scs : list nat) :
  flat_map (scheduledBy w) scs =
    flat_map (fun l => match socketListeners w !! l with
                       | Some o => [{| handler := BoundInitConnection l;
                                       timeout := SocketListenerObj.closed_repeat_delay o * 1000 |}]
                       | None => []
                       end)
             (omap (reconnectOf (scopes w)) scs).
Proof.
  induction scs as [|scope rest IH]; [reflexivity|].
  cbn [flat_map]. rewrite IH, omap_cons'.
  assert (Hs : scheduledBy w scope =
               match reconnectOf (scopes w) scope with
               | Some l =>
                   match socketListeners w !! l with
                   | Some o => [{| handler := BoundInitConnection l;
                                   timeout := SocketListenerObj.closed_repeat_delay o * 1000 |}]
                   | None => []
                   end
               | None => []
               end).
  { unfold scheduledBy, reconnectOf. destruct (scopes w !! scope) as [[[]|]|]; reflexivity. }
  rewrite Hs. destruct (reconnectOf (scopes w) scope); reflexivity.
Qed.

Lemma goodListener_more (w w' : World) (extra : list (option Fn)) (l : nat)
    (o : SocketListenerObj.t) :
  scopesValid w ->
  scopes w' = scopes w ++ extra ->
  (forall k ws, sockets w !! k = Some ws ->
     exists ws', sockets w' !! k = Some ws' /\
                 reconnectors (scopes w') (listeners ws') =
                   reconnectors (scopes w) (listeners ws)) ->
  goodListener w l o -> goodListener w' l o.
Proof.
  intros Hvalid Hsc Hsockets (Hdelay & Hcaller & k & ws & Hk & Hws & Hrec).
  destruct (Hsockets k ws Hws) as (ws' & Hws' & Hrec').
  split; [exact Hdelay|]. split; [exact Hcaller|].
  exists k, ws'. split; [exact Hk|]. split; [exact Hws'|]. congruence.
Qed.

(** A new socket for [this], every older socket as it was. *)
Lemma extend_wellConnected (w w' : World) (this : nat) (o : SocketListenerObj.t)
    (ls : list (string * nat)) (extra : list (option Fn)) :
  socketListeners w' =
    <[this := SocketListenerObj.set_socket (length (sockets w)) o]> (socketListeners w) ->
  sockets w' = sockets w ++
                 [{| ws_url := SocketListenerObj.url o; listeners := ls; closeCalled := false |}] ->
  scopes w' = scopes w ++ extra ->
  Forall (fun p => p.2 < length (scopes w ++ extra)) ls ->
  reconnectors (scopes w ++ extra) ls = [this] ->
  SocketListenerObj.closed_repeat_delay o = 10%Z ->
  callerMap (SocketListenerObj.callbacks o) ->
  scopesValid w ->
  (forall l o', l <> this -> socketListeners w !! l = Some o' -> goodListener w l o') ->
  wellConnected w'.
Proof.
  intros Hsl Hso Hsc Hls Hrec Hdelay Hcaller Hvalid Hothers. split.
  - intros k ws. rewrite Hso, Hsc. intros Hk.
    apply lookup_app_Some in Hk as [Hk|[_ Hk]].
    + eapply Forall_impl; [exact (Hvalid k ws Hk)|].
      intros p Hp. cbn beta in *. rewrite length_app. lia.
    + apply list_lookup_singleton_Some in Hk as [_ <-]. exact Hls.
  - intros l o'. rewrite Hsl. intros Hl.
    destruct (decide (l = this)) as [->|Hne].
    + pose proof (lookup_lt_Some _ _ _ Hl) as Hlt. rewrite length_insert in Hlt.
      rewrite list_lookup_insert_eq in Hl by exact Hlt. injection Hl as <-.
      split; [exact Hdelay|]. split; [exact Hcaller|].
      eexists _, _. split; [reflexivity|]. rewrite Hso, Hsc.
      split; [apply lookup_snoc|exact Hrec].
    + rewrite list_lookup_insert_ne in Hl by congruence.
      eapply goodListener_more; [exact Hvalid|exact Hsc| |exact (Hothers l o' Hne Hl)].
      intros k ws Hk. exists ws. rewrite Hso, Hsc.
      split; [now apply lookup_app_l_Some|].
      apply reconnectors_more_scopes, (Hvalid k ws Hk).
Qed.

(** One socket rewritten in place, with listeners that reconnect as before. *)
Lemma update_wellConnected (w w' : World) (k : nat) (ws ws' : WebSocket)
    (extra : list (option Fn)) :
  wellConnected w ->
  sockets w !! k = Some ws ->
  socketListeners w' = socketListeners w ->
  sockets w' = <[k := ws']> (sockets w) ->
  scopes w' = scopes w ++ extra ->
  Forall (fun p => p.2 < length (scopes w ++ extra)) (listeners ws') ->
  reconnectors (scopes w ++ extra) (listeners ws') = reconnectors (scopes w) (listeners ws) ->
  wellConnected w'.
Proof.
  intros [Hvalid Hgood] Hk Hsl Hso Hsc Hls Hrec.
  pose proof (lookup_lt_Some _ _ _ Hk) as Hlt. split.
  - intros k1 ws1. rewrite Hso, Hsc. intros Hk1.
    destruct (decide (k1 = k)) as [->|Hne].
    + rewrite list_lookup_insert_eq in Hk1 by exact Hlt. now injection Hk1 as <-.
    + rewrite list_lookup_insert_ne in Hk1 by congruence.
      eapply Forall_impl; [exact (Hvalid k1 ws1 Hk1)|].
      intros p Hp. cbn beta in *. rewrite length_app. lia.
  - intros l o. rewrite Hsl. intros Hl.
    eapply goodListener_more; [exact Hvalid|exact Hsc| |exact (Hgood l o Hl)].
    intros k1 ws1 Hk1. rewrite Hso, Hsc.
    destruct (decide (k1 = k)) as [->|Hne].
    + exists ws'. rewrite list_lookup_insert_eq by exact Hlt.
      split; [reflexivity|]. rewrite Hrec. congruence.
    + exists ws1. rewrite list_lookup_insert_ne by congruence.
      split; [exact Hk1|]. apply reconnectors_more_scopes, (Hvalid k1 ws1 Hk1).
Qed.

Lemma wellConnected_connection (w w' : World) :
  connection w' = connection w -> wellConnected w -> wellConnected w'.
Proof.
  unfold connection. intros Hc [Hvalid Hgood]. injection Hc as Hsl Hso Hsc. split.
  - intros k ws. rewrite Hso, Hsc. apply Hvalid.
  - intros l o. rewrite Hsl. intros Hl. destruct (Hgood l o Hl) as (? & ? & k & ws & ? & ? & ?).
    repeat split; try assumption. exists k, ws. rewrite Hso, Hsc. auto.
Qed.

Lemma reconnectors_own (sc : list (option Fn)) (n this : nat) :
  sc !! n = Some (Some (ReconnectClosure this)) ->
  reconnectors sc [("close", n)] = [this].
Proof.
  intros Hn. unfold reconnectors. cbn [Browser.listening].
  rewrite String.eqb_refl, omap_cons'. unfold reconnectOf. now rewrite Hn.
Qed.

Lemma connected_wellConnected (w : World) (this : nat) (o : SocketListenerObj.t) :
  SocketListenerObj.closed_repeat_delay o = 10%Z ->
  callerMap (SocketListenerObj.callbacks o) ->
  scopesValid w ->
  (forall l o', l <> this -> socketListeners w !! l = Some o' -> goodListener w l o') ->
  wellConnected (connected this o w).
Proof.
  intros Hdelay Hcaller Hvalid Hothers. unfold connected.
  destruct (SocketListenerObj.callbacks o) as [props|] eqn:Hprops.
  - eapply (extend_wellConnected w _ this o); world_fields; try reflexivity; try assumption.
    + apply Forall_app. split.
      * apply Forall_map, Forall_forall. intros p _. cbn. rewrite length_app. simpl. lia.
      * constructor; [|constructor]. cbn. rewrite length_app. simpl. lia.
    + rewrite reconnectors_app, reconnectors_caller by now apply lastCallback_caller.
      apply reconnectors_own. rewrite lookup_app_r by lia.
      now replace (S (length (scopes w)) - length (scopes w)) with 1 by lia.
    + now rewrite Hprops.
  - eapply (extend_wellConnected w _ this o); world_fields; try reflexivity; try assumption.
    + constructor; [|constructor]. cbn. rewrite length_app. simpl. lia.
    + apply reconnectors_own, lookup_snoc.
    + now rewrite Hprops.
Qed.

(** ** The worlds a page can reach *)

Section Reachable.
Context `{Platform}.

Lemma goodListener_connection (w w' : World) (l : nat) (o : SocketListenerObj.t) :
  sockets w' = sockets w -> scopes w' = scopes w ->
  goodListener w l o -> goodListener w' l o.
Proof.
  intros Hso Hsc (? & ? & k & ws & ? & ? & ?).
  repeat split; try assumption. exists k, ws. rewrite Hso, Hsc. auto.
Qed.

Lemma constructor_wellConnected (url : string) (callbacks : option (list (string * Fn)))
    (w : World) :
  callerMap callbacks -> wellConnected w ->
  wellConnected (snd (SocketListener.constructor url callbacks w)).
Proof.
  intros Hcaller Hwc. destruct (acceptsUrl url) eqn:Hurl.
  - destruct Hwc as [Hvalid Hgood]. rewrite constructor_run by exact Hurl. cbn [snd].
    apply connected_wellConnected; try assumption; try reflexivity.
    intros l o' Hne. world_fields. intros Hl.
    apply lookup_app_Some in Hl as [Hl|[Hge Hl]].
    + eapply goodListener_connection; [| |exact (Hgood l o' Hl)]; reflexivity.
    + apply list_lookup_singleton_Some in Hl as [Hl _]. lia.
  - rewrite constructor_rejected by exact Hurl. now apply (wellConnected_connection w).
Qed.

Lemma addListeners_wellConnected (this : nat) (callbacks : option (list (string * Fn)))
    (w : World) :
  is_Some (socketListeners w !! this) -> callerMap callbacks -> wellConnected w ->
  wellConnected (snd (SocketListener.addListeners this callbacks w)).
Proof.
  intros [o Hthis] Hcaller Hwc. destruct callbacks as [props|].
  - destruct (wc_listener w Hwc this o Hthis) as (_ & _ & k & ws & Hk & Hws & _).
    rewrite (addListeners_Some this k o Hk props w ws Hthis Hws). cbn [snd].
    eapply (update_wellConnected w _ k ws _ [lastCallback props]); world_fields;
      try reflexivity; try assumption.
    + cbn [listeners attach]. apply Forall_app. split.
      * eapply Forall_impl; [exact (wc_scopes w Hwc k ws Hws)|].
        intros p Hp. cbn beta in *. rewrite length_app. lia.
      * apply Forall_map, Forall_forall. intros p _. cbn. rewrite length_app. simpl. lia.
    + cbn [listeners attach].
      rewrite reconnectors_app, (reconnectors_caller _ _ props)
        by now apply lastCallback_caller.
      rewrite app_nil_r. apply reconnectors_more_scopes, (wc_scopes w Hwc k ws Hws).
  - rewrite addListeners_None. now apply (wellConnected_connection w).
Qed.

Lemma close_run (this k : nat) (o : SocketListenerObj.t) (ws : WebSocket) (w : World) :
  socketListeners w !! this = Some o ->
  SocketListenerObj.socket o = Some k ->
  sockets w !! k = Some ws ->
  SocketListener.close this w =
    (Normal tt,
     with_sockets (<[k := {| ws_url := ws_url ws; listeners := listeners ws;
                             closeCalled := true |}]> (sockets w)) w).
Proof.
  intros Hthis Hk Hws. unfold SocketListener.close.
  erewrite bind_Normal by (unfold readSocketListener; now rewrite Hthis).
  rewrite Hk. unfold socketClose. now rewrite Hws.
Qed.

Lemma close_wellConnected (this : nat) (w : World) :
  is_Some (socketListeners w !! this) -> wellConnected w ->
  wellConnected (snd (SocketListener.close this w)).
Proof.
  intros [o Hthis] Hwc.
  destruct (wc_listener w Hwc this o Hthis) as (_ & _ & k & ws & Hk & Hws & _).
  rewrite (close_run this k o ws w Hthis Hk Hws). cbn [snd].
  eapply (update_wellConnected w _ k ws _ []); world_fields;
    try reflexivity; try assumption; rewrite ?app_nil_r; try reflexivity.
  cbn [listeners]. exact (wc_scopes w Hwc k ws Hws).
Qed.

Lemma run_wellConnected (this : nat) (w : World) :
  is_Some (stateListeners w !! this) -> wellConnected w ->
  wellConnected (snd (StateListener.run this w)).
Proof.
  intros [o Hthis] Hwc. unfold StateListener.run.
  erewrite bind_Normal by (unfold readStateListener; now rewrite Hthis).
  set (props := Some _).
  assert (Hcaller : callerMap props) by (repeat constructor).
  pose proof (constructor_wellConnected (StateListenerObj.url o) props w Hcaller Hwc) as Hwc1.
  unfold bind.
  destruct (SocketListener.constructor (StateListenerObj.url o) props w) as [[l|e] w1];
    cbn [snd] in *; [|exact Hwc1].
  unfold writeStateListener. destruct (stateListeners w1 !! this); cbn [snd]; [|exact Hwc1].
  now apply (wellConnected_connection w1).
Qed.

Lemma fireTimer_wellConnected (i : nat) (w : World) :
  wellConnected w -> wellConnected (snd (Browser.fireTimer i w)).
Proof.
  intros Hwc. unfold Browser.fireTimer.
  destruct (timers w !! i) as [[[self] ms]|]; [|exact Hwc]. cbn [handler].
  set (w0 := with_timers _ w).
  assert (Hwc0 : wellConnected w0) by now apply (wellConnected_connection w).
  unfold Browser.reported.
  destruct (socketListeners w0 !! self) as [o|] eqn:Hself.
  - rewrite (initConnection_run self o w0 Hself). cbn [snd].
    destruct (wc_listener w0 Hwc0 self o Hself) as (Hdelay & Hcaller & _).
    apply connected_wellConnected; try assumption.
    + exact (wc_scopes w0 Hwc0).
    + intros l o' _. exact (wc_listener w0 Hwc0 l o').
  - unfold SocketListener.initConnection.
    erewrite bind_Throw by (unfold readSocketListener; now rewrite Hself).
    cbn [snd]. now apply (wellConnected_connection w0).
Qed.

Lemma step_wellConnected (w w' : World) :
  step w w' -> wellConnected w -> wellConnected w'.
Proof.
  intros Hstep Hwc. destruct Hstep as [url cbs Hc|this cbs Hthis Hc|this Hthis|url cb
                                      |this Hthis|k event [ws Hk]|i].
  - now apply constructor_wellConnected.
  - now apply addListeners_wellConnected.
  - now apply close_wellConnected.
  - now apply (wellConnected_connection w).
  - now apply run_wellConnected.
  - destruct (dispatchEvent_effect k ws event w Hk) as (w1 & Hrun & Hconn & _).
    rewrite Hrun. now apply (wellConnected_connection w).
  - now apply fireTimer_wellConnected.
Qed.

Lemma emptyWorld_wellConnected : wellConnected emptyWorld.
Proof. split; intros ? ? Hl; discriminate Hl. Qed.

Lemma reachable_wellConnected (w : World) : reachable w -> wellConnected w.
Proof.
  induction 1 as [|w w' _ IH Hstep]; [exact emptyWorld_wellConnected|].
  exact (step_wellConnected w w' Hstep IH).
Qed.

End Reachable.

(** ** Reconnecting *)

Lemma delete_snoc {A} (l : list A) (x : A) : delete (length l) (l ++ [x]) = l.
Proof. induction l as [|a l IH]; [reflexivity|]. simpl. now rewrite IH. Qed.

Section Reconnecting.
Context `{Platform}.

(** A "close" event at the socket of a well-connected SocketListener sets
    one timer, for its [initConnection], and touches no socket. *)
Lemma close_event_schedules (w : World) (l k : nat) (o : SocketListenerObj.t)
    (event : Event) :
  wellConnected w ->
  socketListeners w !! l = Some o ->
  SocketListenerObj.socket o = Some k ->
  type event = "close" ->
  exists w',
    Browser.dispatchEvent k event w = (Normal tt, w') /\
    connection w' = connection w /\
    timers w' = timers w ++ [{| handler := BoundInitConnection l; timeout := 10000 |}].
Proof.
  intros Hwc Hl Hk Hty.
  destruct (wc_listener w Hwc l o Hl) as (Hdelay & _ & k' & ws & Hk' & Hws & Hrec).
  assert (k' = k) as -> by congruence.
  destruct (dispatchEvent_effect k ws event w Hws) as (w' & Hrun & Hconn & Htimers).
  exists w'. split; [exact Hrun|]. split; [exact Hconn|].
  rewrite Htimers, Hty, scheduled_reconnectors.
  change (omap (reconnectOf (scopes w)) (Browser.listening "close" (listeners ws)))
    with (reconnectors (scopes w) (listeners ws)).
  rewrite Hrec. cbn [flat_map]. now rewrite Hl, Hdelay.
Qed.

Lemma timer_connects (w : World) (l : nat) (o : SocketListenerObj.t) (t : Timer)
    (before : list Timer) :
  socketListeners w !! l = Some o ->
  timers w = before ++ [t] ->
  handler t = BoundInitConnection l ->
  Browser.fireTimer (length before) w = (Normal tt, connected l o (with_timers before w)).
Proof.
  intros Hl Ht Hh. unfold Browser.fireTimer.
  rewrite Ht, lookup_snoc, Hh, delete_snoc. unfold Browser.reported.
  now rewrite (initConnection_run l o) by exact Hl.
Qed.

(** C3: in every world the page can reach, whatever happened before, a
    "close" event at the socket of a SocketListener sets exactly one new
    timer; it is for that instance's [initConnection], with a delay of
    10000 milliseconds; when it expires [initConnection] runs and gives the
    instance a new socket, in a world that is reachable again. *)
Theorem every_close_schedules_one_reconnect
    (w : World) (l k : nat) (o : SocketListenerObj.t) (event : Event) :
  reachable w ->
  socketListeners w !! l = Some o ->
  SocketListenerObj.socket o = Some k ->
  type event = "close" ->
  exists w',
    Browser.dispatchEvent k event w = (Normal tt, w') /\
    timers w' = timers w ++ [{| handler := BoundInitConnection l; timeout := 10000 |}] /\
    Browser.fireTimer (length (timers w)) w' =
      (Normal tt, connected l o (with_timers (timers w) w')) /\
    reachable (connected l o (with_timers (timers w) w')).
Proof.
  intros Hreach Hl Hk Hty.
  pose proof (reachable_wellConnected w Hreach) as Hwc.
  destruct (close_event_schedules w l k o event Hwc Hl Hk Hty) as (w' & Hrun & Hconn & Ht).
  assert (Hl' : socketListeners w' !! l = Some o).
  { unfold connection in Hconn. injection Hconn as -> _ _. exact Hl. }
  assert (Hfire := timer_connects w' l o _ (timers w) Hl' Ht eq_refl).
  exists w'. repeat split; try assumption.
  assert (Hk' : is_Some (sockets w !! k)).
  { destruct (wc_listener w Hwc l o Hl) as (_ & _ & k' & ws & Hk' & Hws & _).
    exists ws. congruence. }
  pose proof (reachable_step w _ Hreach (step_event w k event Hk')) as Hreach'.
  rewrite Hrun in Hreach'. cbn [snd] in Hreach'.
  pose proof (reachable_step w' _ Hreach' (step_timer w' (length (timers w)))) as Hreach''.
  now rewrite Hfire in Hreach''.
Qed.

(** What [initConnection] leaves, field by field. *)
Lemma connected_fields (w : World) (l : nat) (o : SocketListenerObj.t) :
  socketListeners w !! l = Some o ->
  socketListeners (connected l o w) !! l =
    Some (SocketListenerObj.set_socket (length (sockets w)) o) /\
  length (sockets (connected l o w)) = S (length (sockets w)) /\
  timers (connected l o w) = timers w.
Proof.
  intros Hl. pose proof (lookup_lt_Some _ _ _ Hl) as Hlt. unfold connected.
  destruct (SocketListenerObj.callbacks o); world_fields;
    (split; [now apply list_lookup_insert_eq|]);
    (split; [rewrite length_app; simpl; lia|reflexivity]).
Qed.

(** X18: retrying never ends: after any number [n] of rounds of a "close" event
    and the expiry of the timer it set, the instance has opened [n] more
    sockets, no timer is left over, and the world is reachable. *)
Lemma retries_unbounded (w : World) (l : nat) (o : SocketListenerObj.t) (event : Event)
    (n : nat) :
  reachable w ->
  socketListeners w !! l = Some o ->
  type event = "close" ->
  let wn := retries event l n w in
  reachable wn /\
  is_Some (socketListeners wn !! l) /\
  length (sockets wn) = length (sockets w) + n /\
  timers wn = timers w.
Proof.
  intros Hreach Hl Hty. induction n as [|n IH]; cbn zeta in *.
  - cbn [retries]. split; [exact Hreach|]. split; [eauto|]. split; [lia|reflexivity].
  - destruct IH as (Hr & [on Hon] & Hlen & Ht). cbn [retries].
    set (wn := retries event l n w) in *.
    pose proof (reachable_wellConnected wn Hr) as Hwc.
    destruct (wc_listener wn Hwc l on Hon) as (_ & _ & k & ws & Hk & Hws & _).
    destruct (close_event_schedules wn l k on event Hwc Hon Hk Hty)
      as (w' & Hrun & Hconn & Ht').
    assert (Hon' : socketListeners w' !! l = Some on).
    { unfold connection in Hconn. injection Hconn as -> _ _. exact Hon. }
    assert (Hso : sockets w' = sockets wn).
    { unfold connection in Hconn. now injection Hconn as _ -> _. }
    pose proof (timer_connects w' l on _ (timers wn) Hon' Ht' eq_refl) as Hfire.
    unfold closeAndRetry. rewrite Hon, Hk, Hrun. cbn [snd]. rewrite Hfire. cbn [snd].
    destruct (connected_fields (with_timers (timers wn) w') l on Hon') as (H1 & H2 & H3).
    split; [|split; [|split]].
    + pose proof (reachable_step wn _ Hr (step_event wn k event (mk_is_Some _ _ Hws)))
        as Hr'.
      rewrite Hrun in Hr'. cbn [snd] in Hr'.
      pose proof (reachable_step w' _ Hr' (step_timer w' (length (timers wn)))) as Hr''.
      now rewrite Hfire in Hr''.
    + eauto.
    + rewrite H2. world_fields. rewrite Hso, Hlen. lia.
    + rewrite H3. world_fields. exact Ht.
Qed.

(** C9: [close()] on an instance without a socket does nothing; on one
    with a socket it marks that socket as asked to close and changes
    nothing else, the pending timers included; and in a reachable world a
    "close" event at that socket afterwards still sets the timer for
    [initConnection]. *)
Theorem close_only_requests_closure
    (w : World) (this : nat) (o : SocketListenerObj.t) :
  socketListeners w !! this = Some o ->
  match SocketListenerObj.socket o with
  | None => SocketListener.close this w = (Normal tt, w)
  | Some k =>
      forall ws, sockets w !! k = Some ws ->
        let w1 := with_sockets
                    (<[k := {| ws_url := ws_url ws; listeners := listeners ws;
                               closeCalled := true |}]> (sockets w)) w in
        SocketListener.close this w = (Normal tt, w1) /\
        timers w1 = timers w /\
        (reachable w ->
         forall event, type event = "close" ->
           exists w2,
             Browser.dispatchEvent k event w1 = (Normal tt, w2) /\
             timers w2 =
               timers w ++ [{| handler := BoundInitConnection this; timeout := 10000 |}])
  end.
Proof.
  intros Hthis. destruct (SocketListenerObj.socket o) as [k|] eqn:Hk.
  - intros ws Hws w1. pose proof (close_run this k o ws w Hthis Hk Hws) as Hrun.
    split; [exact Hrun|]. split; [reflexivity|].
    intros Hreach event Hty.
    assert (Hwc1 : wellConnected w1).
    { apply (reachable_wellConnected w1).
      pose proof (reachable_step w _ Hreach (step_close w this (mk_is_Some _ _ Hthis))) as Hr.
      now rewrite Hrun in Hr. }
    destruct (close_event_schedules w1 this k o event Hwc1 Hthis Hk Hty)
      as (w2 & Hrun2 & _ & Ht).
    exists w2. split; [exact Hrun2|exact Ht].
  - unfold SocketListener.close.
    erewrite bind_Normal by (unfold readSocketListener; now rewrite Hthis).
    now rewrite Hk.
Qed.

End Reconnecting.

Lemma connectedWorld_reachable : @reachable samplePlatform connectedWorld.
Proof.
  apply (@reachable_step samplePlatform emptyWorld connectedWorld (@reachable_empty _)).
  apply (@step_new_SocketListener samplePlatform emptyWorld "wss://x"
           (Some [("close", PageFn 1); ("message", PageFn 2)])).
  repeat constructor.
Defined.

Lemma every_close_schedules_one_reconnect_witness :
  exists w',
    @Browser.dispatchEvent samplePlatform 0 closeEvent connectedWorld = (Normal tt, w') /\
    timers w' = timers connectedWorld ++
                  [{| handler := BoundInitConnection 0; timeout := 10000 |}] /\
    Browser.fireTimer (length (timers connectedWorld)) w' =
      (Normal tt, connected 0 connectedListener (with_timers (timers connectedWorld) w')) /\
    @reachable samplePlatform
      (connected 0 connectedListener (with_timers (timers connectedWorld) w')).
Proof.
  exact (@every_close_schedules_one_reconnect samplePlatform connectedWorld 0 0
           connectedListener closeEvent connectedWorld_reachable eq_refl eq_refl eq_refl).
Defined.

Lemma close_only_requests_closure_witness :
  let w1 := with_sockets
              [{| ws_url := "wss://x";
                  listeners := [("close", 0); ("message", 0); ("close", 1)];
                  closeCalled := true |}] connectedWorld in
  SocketListener.close 0 connectedWorld = (Normal tt, w1) /\
  timers w1 = timers connectedWorld /\
  exists w2,
    @Browser.dispatchEvent samplePlatform 0 closeEvent w1 = (Normal tt, w2) /\
    timers w2 = timers connectedWorld ++
                  [{| handler := BoundInitConnection 0; timeout := 10000 |}].
Proof.
  destruct (@close_only_requests_closure samplePlatform connectedWorld 0 connectedListener
              eq_refl
              {| ws_url := "wss://x";
                 listeners := [("close", 0); ("message", 0); ("close", 1)];
                 closeCalled := false |} eq_refl) as (Hclose & Htimers & Hevent).
  split; [exact Hclose|]. split; [exact Htimers|].
  exact (Hevent connectedWorld_reachable closeEvent eq_refl).
Defined.

(** ** Which function a listener calls *)

Section Listeners.
Context `{Platform}.


(** C8: with the map [{"open": f1, "message": f2}] addListeners puts one
    listener under "open" and one under "message", and both call the
    function last assigned to [callback]: an "open" event calls f2, and f1
    is never called. *)
Theorem addListeners_open_calls_last_callback :
  let w0 := snd (SocketListener.constructor "wss://x" None emptyWorld) in
  let w1 := snd (SocketListener.addListeners 0
                   (Some [("open", PageFn 1); ("message", PageFn 2)]) w0) in
  (sockets w1 !! 0 = Some {| ws_url := "wss://x";
                             listeners := [("close", 0); ("open", 1); ("message", 1)];
                             closeCalled := false |} /\
   scopes w1 !! 1 = Some (Some (PageFn 2))) /\
  Browser.dispatchEvent 0 openEvent w1 =
    (Normal tt, with_trace (trace w1 ++ [Called 2 (ArgEvent openEvent)]) w1).
Proof.
  assert (Hurl : acceptsUrl "wss://x" = true) by (apply accepts_plain; reflexivity).
  unfold SocketListener.constructor. rewrite Hurl. repeat split.
Qed.

(** C4: with the map [{"close": f1, "message": f2}] a "close" event on the
    socket calls f2 and the reconnecting closure; the caller's "close"
    handler f1 is not called. *)
Theorem close_event_skips_caller_close_handler :
  Browser.dispatchEvent 0 closeEvent connectedWorld =
    (Normal tt,
     with_timers [{| handler := BoundInitConnection 0; timeout := 10000 |}]
       (with_trace (trace connectedWorld ++
                      [Called 2 (ArgEvent closeEvent);
                       Console (DebugClosed "wss://x" 10)]) connectedWorld)).
Proof. reflexivity. Qed.

(** The StateListener of [runningWorld] on a "close" event of its socket:
    the listener under "close" calls the "message" closure of [run], which
    ignores an event of type "close"; the state-change callback is not
    called and the state stays the empty object. *)
Example running_close_event_is_silent :
  Browser.dispatchEvent 0 closeEvent runningWorld =
    (Normal tt,
     with_timers [{| handler := BoundInitConnection 0; timeout := 10000 |}]
       (with_trace (trace runningWorld ++ [Console (DebugClosed "wss://x/y" 10)])
          runningWorld)).
Proof. reflexivity. Qed.

End Listeners.

(** * Further properties *)

(** ** genericEventListener and handleStateUpdate at the edges *)

Section MessageEdges.
Context `{Platform}.

Lemma handleStateUpdate_notifies (this : nat) (o : StateListenerObj.t) (v : JsValue)
    (w : World) :
  stateListeners w !! this = Some o ->
  StateListener.handleStateUpdate this v w =
    (Normal tt,
     with_trace (trace w ++ [notification o v])
       (with_stateListeners (<[this := StateListenerObj.set_state v o]> (stateListeners w)) w)).
Proof.
  intros Hthis. pose proof (lookup_lt_Some _ _ _ Hthis) as Hlt.
  unfold StateListener.handleStateUpdate.
  erewrite bind_Normal by (unfold writeStateListener; now rewrite Hthis).
  erewrite bind_Normal by
    (unfold readStateListener; world_fields; now rewrite list_lookup_insert_eq).
  unfold notification. cbn [StateListenerObj.stateChangeCallback StateListenerObj.set_state].
  destruct (StateListenerObj.stateChangeCallback o); reflexivity.
Qed.

(** The "message" branch on a text that parses to an object tagged "state":
    the world it leaves, [v] being the [data] property or undefined. *)
Lemma state_message_run (this : nat) (o : StateListenerObj.t) (event : Event)
    (fields : list (string * JsValue)) (w : World) :
  stateListeners w !! this = Some o ->
  type event = "message" ->
  JSON_parse (data event) = Some (JObject fields) ->
  lookupField "event" fields = Some (JString "state") ->
  let v := match lookupField "data" fields with Some x => x | None => JUndefined end in
  StateListener.genericEventListener this "message" event w =
    (Normal tt,
     with_trace (trace w ++ [Parsed (data event); notification o v])
       (with_stateListeners (<[this := StateListenerObj.set_state v o]> (stateListeners w)) w)).
Proof.
  intros Hthis Hty Hparse Hevent v.
  rewrite genericEventListener_message by exact Hty.
  erewrite bind_Normal by (apply parse_Some; exact Hparse).
  erewrite bind_Normal by apply getProperty_object.
  rewrite Hevent. cbn [strictEqString]. rewrite String.eqb_refl.
  erewrite bind_Normal by apply getProperty_object.
  rewrite (handleStateUpdate_notifies this o) by exact Hthis.
  f_equal. apply world_eq; world_fields; try reflexivity. now rewrite <- app_assoc.
Qed.

(** X1: a "state" message without a [data] property still updates: the
    state becomes undefined and the notification carries undefined. *)
Theorem state_message_without_data
    (w : World) (this : nat) (o : StateListenerObj.t) (event : Event)
    (fields : list (string * JsValue)) :
  stateListeners w !! this = Some o ->
  type event = "message" ->
  JSON_parse (data event) = Some (JObject fields) ->
  lookupField "event" fields = Some (JString "state") ->
  lookupField "data" fields = None ->
  exists w',
    StateListener.genericEventListener this "message" event w = (Normal tt, w') /\
    trace w' = trace w ++ [Parsed (data event); notification o JUndefined] /\
    stateListeners w' !! this = Some (StateListenerObj.set_state JUndefined o).
Proof.
  intros Hthis Hty Hparse Hevent Hdata.
  pose proof (state_message_run this o event fields w Hthis Hty Hparse Hevent) as Hrun.
  cbn zeta in Hrun. rewrite Hdata in Hrun. rewrite Hrun.
  eexists. split; [reflexivity|]. world_fields. split; [reflexivity|].
  apply list_lookup_insert_eq. eapply lookup_lt_Some; eassumption.
Qed.

(** X2: the JSON text [null] is valid but has no properties: reading
    [json.event] throws a TypeError after the parse, before any state is
    written or any callback called. *)
Theorem null_message_throws_type_error (w : World) (this : nat) (event : Event) :
  type event = "message" ->
  JSON_parse (data event) = Some JNull ->
  StateListener.genericEventListener this "message" event w =
    (Throw TypeError, with_trace (trace w ++ [Parsed (data event)]) w).
Proof.
  intros Hty Hparse.
  rewrite genericEventListener_message by exact Hty.
  erewrite bind_Normal by (apply parse_Some; exact Hparse).
  reflexivity.
Qed.

(** X3: a message that parses to a number, a string, a boolean or an array,
    or to an object without an [event] property, is dropped like one with a
    foreign tag: the method returns, nothing is called, no state written. *)
Theorem message_without_event_ignored
    (w : World) (this : nat) (event : Event) (v : JsValue) :
  type event = "message" ->
  JSON_parse (data event) = Some v ->
  withoutEvent v ->
  StateListener.genericEventListener this "message" event w =
    (Normal tt, with_trace (trace w ++ [Parsed (data event)]) w).
Proof.
  intros Hty Hparse Hv.
  rewrite genericEventListener_message by exact Hty.
  erewrite bind_Normal by (apply parse_Some; exact Hparse).
  destruct v; simpl in Hv; try contradiction; try reflexivity.
  erewrite bind_Normal by apply getProperty_object. now rewrite Hv.
Qed.

(** X4: two updates in a row: both are notified, in order, and the state is
    the value of the second. *)
Theorem handleStateUpdate_twice
    (w : World) (this : nat) (o : StateListenerObj.t) (v1 v2 : JsValue) :
  stateListeners w !! this = Some o ->
  exists w',
    (do _ <- StateListener.handleStateUpdate this v1;
     StateListener.handleStateUpdate this v2) w = (Normal tt, w') /\
    trace w' = trace w ++ [notification o v1; notification o v2] /\
    stateListeners w' = <[this := StateListenerObj.set_state v2 o]> (stateListeners w).
Proof.
  intros Hthis. pose proof (lookup_lt_Some _ _ _ Hthis) as Hlt.
  erewrite bind_Normal by (apply handleStateUpdate_notifies; exact Hthis).
  erewrite handleStateUpdate_notifies
    by (world_fields; now apply list_lookup_insert_eq).
  eexists. split; [reflexivity|]. world_fields.
  split; [now rewrite <- app_assoc|]. now rewrite list_insert_insert_eq.
Qed.

End MessageEdges.

(** ** What genericEventListener never touches *)

Lemma localTo_ret {A} (this : nat) (a : A) : localTo this (ret a).
Proof. intros w. now left. Qed.

Lemma localTo_throw {A} (this : nat) (e : JsError) : localTo this (@throw A e).
Proof. intros w. now left. Qed.

Lemma localTo_emit (this : nat) (e : Effect) : localTo this (emit e).
Proof. intros w. now left. Qed.

Lemma localTo_bind {A B} (this : nat) (c : Js A) (k : A -> Js B) :
  localTo this c -> (forall a, localTo this (k a)) -> localTo this (bind c k).
Proof.
  intros Hc Hk w. unfold bind. specialize (Hc w).
  destruct (c w) as [[a|e] w1]; simpl in Hc; [|exact Hc].
  destruct (Hk a w1) as [Hk1|[y Hk1]]; rewrite Hk1.
  - exact Hc.
  - destruct Hc as [->|[x ->]]; right; exists y; [reflexivity|].
    apply list_insert_insert_eq.
Qed.

Lemma localTo_readStateListener (this : nat) : localTo this (readStateListener this).
Proof.
  intros w. left. unfold readStateListener. now destruct (stateListeners w !! this).
Qed.

Lemma localTo_writeStateListener (this : nat) (f : StateListenerObj.t -> StateListenerObj.t) :
  localTo this (writeStateListener this f).
Proof.
  intros w. unfold writeStateListener.
  destruct (stateListeners w !! this) as [o|]; [right; now exists (f o)|now left].
Qed.

Lemma localTo_getProperty (this : nat) (v : JsValue) (name : string) :
  localTo this (getProperty v name).
Proof. destruct v; simpl; auto using localTo_ret, localTo_throw. Qed.

Section Untouched.
Context `{Platform}.

Lemma localTo_genericEventListener (this : nat) (ty : string) (event : Event) :
  localTo this (StateListener.genericEventListener this ty event).
Proof.
  unfold StateListener.genericEventListener.
  destruct (String.eqb ty "message" && String.eqb (type event) "message").
  - apply localTo_bind.
    { unfold StateListener.parse. apply localTo_bind; [apply localTo_emit|intros _].
      destruct (JSON_parse (data event)); [apply localTo_ret|apply localTo_throw]. }
    intros json. apply localTo_bind; [apply localTo_getProperty|intros tag].
    destruct (strictEqString tag "state"); [|apply localTo_ret].
    apply localTo_bind; [apply localTo_getProperty|intros payload].
    unfold StateListener.handleStateUpdate.
    apply localTo_bind; [apply localTo_writeStateListener|intros _].
    apply localTo_bind; [apply localTo_readStateListener|intros o].
    destruct (StateListenerObj.stateChangeCallback o); apply localTo_emit.
  - destruct (String.eqb ty "close"); [apply localTo_throw|apply localTo_ret].
Qed.

(** X5: whatever the type, the event and the text, and whether it returns
    or throws, genericEventListener opens and closes no socket, adds no
    listener, sets no timer, changes no SocketListener, creates no
    StateListener and writes to none other than its own. *)
Theorem genericEventListener_touches_only_own_state
    (w : World) (this : nat) (ty : string) (event : Event) :
  let w' := snd (StateListener.genericEventListener this ty event w) in
  socketListeners w' = socketListeners w /\
  sockets w' = sockets w /\
  scopes w' = scopes w /\
  timers w' = timers w /\
  length (stateListeners w') = length (stateListeners w) /\
  forall j, j <> this -> stateListeners w' !! j = stateListeners w !! j.
Proof.
  intros w'. subst w'.
  destruct (quiet_genericEventListener this ty event w) as [Hconn Ht].
  unfold connection in Hconn. injection Hconn as Hsl Hso Hsc.
  repeat (split; [assumption|]).
  destruct (localTo_genericEventListener this ty event w) as [->|[x ->]].
  - split; reflexivity.
  - split; [apply length_insert|]. intros j Hj. now apply list_lookup_insert_ne.
Qed.

End Untouched.

(** ** SocketListener: connecting, adding listeners, closing *)

Section Connecting.
Context `{Platform}.


(** X7: for a defined map, [addListeners] returns without a console entry
    and adds to the socket of the instance one listener per property, in
    for-in order and under the property's name; all of them read the one
    variable [callback], which holds the function of the last property.
    Nothing else changes. *)
Theorem addListeners_shares_one_callback
    (w : World) (this k : nat) (o : SocketListenerObj.t) (ws : WebSocket)
    (props : list (string * Fn)) :
  socketListeners w !! this = Some o ->
  SocketListenerObj.socket o = Some k ->
  sockets w !! k = Some ws ->
  exists w',
    SocketListener.addListeners this (Some props) w = (Normal tt, w') /\
    sockets w' =
      <[k := attach ws (map (fun p => (p.1, length (scopes w))) props)]> (sockets w) /\
    scopes w' = scopes w ++ [lastCallback props] /\
    socketListeners w' = socketListeners w /\
    stateListeners w' = stateListeners w /\
    timers w' = timers w /\
    trace w' = trace w.
Proof.
  intros Hthis Hk Hws.
  rewrite (addListeners_Some this k o Hk props w ws Hthis Hws).
  eexists. split; [reflexivity|]. world_fields. repeat split.
Qed.

(** X8: listeners added by hand with [addListeners] stay on the socket they
    were added to: after the next [initConnection] the new socket of the
    instance carries the listeners for [callbacks] and the reconnecting one,
    and none of them reads the variable of the hand-added ones. *)
Theorem manual_listeners_not_readded
    (w : World) (this k : nat) (o : SocketListenerObj.t) (ws : WebSocket)
    (props : list (string * Fn)) :
  socketListeners w !! this = Some o ->
  SocketListenerObj.socket o = Some k ->
  sockets w !! k = Some ws ->
  let manual := length (scopes w) in
  let w1 := snd (SocketListener.addListeners this (Some props) w) in
  exists w2 ws2,
    SocketListener.initConnection this w1 = (Normal tt, w2) /\
    sockets w2 !! k = Some (attach ws (map (fun p => (p.1, manual)) props)) /\
    socketListeners w2 !! this =
      Some (SocketListenerObj.set_socket (length (sockets w)) o) /\
    sockets w2 !! length (sockets w) = Some ws2 /\
    map fst (listeners ws2) =
      match SocketListenerObj.callbacks o with
      | Some own => map fst own
      | None => []
      end ++ ["close"] /\
    Forall (fun p => p.2 <> manual) (listeners ws2).
Proof.
  intros Hthis Hk Hws manual w1. subst manual w1.
  pose proof (lookup_lt_Some _ _ _ Hthis) as Hlt.
  pose proof (lookup_lt_Some _ _ _ Hws) as Hklt.
  rewrite (addListeners_Some this k o Hk props w ws Hthis Hws). cbn [snd].
  set (w1 := with_sockets _ _).
  assert (Hthis1 : socketListeners w1 !! this = Some o) by exact Hthis.
  assert (Hlen : length (sockets w1) = length (sockets w)).
  { subst w1. world_fields. apply length_insert. }
  rewrite (initConnection_run this o w1 Hthis1). unfold connected. rewrite Hlen.
  destruct (SocketListenerObj.callbacks o) as [own|]; eexists _, _;
    (split; [reflexivity|]); world_fields.
  - split; [apply lookup_app_l_Some; now apply list_lookup_insert_eq|].
    split; [now apply list_lookup_insert_eq|].
    split; [rewrite <- Hlen; subst w1; world_fields; apply lookup_snoc|].
    cbn [listeners]. split.
    + rewrite map_app, map_map. reflexivity.
    + rewrite length_app. cbn [length]. apply Forall_app. split.
      * apply Forall_map, Forall_forall. intros p _. cbn. lia.
      * constructor; [cbn; lia|constructor].
  - split; [apply lookup_app_l_Some; now apply list_lookup_insert_eq|].
    split; [now apply list_lookup_insert_eq|].
    split; [rewrite <- Hlen; subst w1; world_fields; apply lookup_snoc|].
    cbn [listeners]. split; [reflexivity|].
    rewrite length_app. cbn [length]. constructor; [cbn; lia|constructor].
Qed.

(** X9: [close()] twice is [close()] once: the second call returns and
    leaves the world of the first. *)
Theorem close_twice_is_close_once
    (w : World) (this k : nat) (o : SocketListenerObj.t) (ws : WebSocket) :
  socketListeners w !! this = Some o ->
  SocketListenerObj.socket o = Some k ->
  sockets w !! k = Some ws ->
  exists w1,
    SocketListener.close this w = (Normal tt, w1) /\
    SocketListener.close this w1 = (Normal tt, w1).
Proof.
  intros Hthis Hk Hws. pose proof (lookup_lt_Some _ _ _ Hws) as Hklt.
  rewrite (close_run this k o ws w Hthis Hk Hws).
  eexists. split; [reflexivity|].
  erewrite close_run; [| exact Hthis | exact Hk
                       | world_fields; now apply list_lookup_insert_eq].
  f_equal. apply world_eq; world_fields; try reflexivity.
  now rewrite list_insert_insert_eq.
Qed.

(** X10: for a URL the platform accepts, [new SocketListener(url,
    undefined)] still connects: it reports the missing map on the console
    and its socket carries the reconnecting listener alone, so that a
    "close" event there calls no function of the page and sets the timer for
    the next attempt. *)
Theorem constructor_without_callbacks_reconnects
    (w : World) (url : string) (event : Event) :
  acceptsUrl url = true ->
  type event = "close" ->
  let l := length (socketListeners w) in
  let k := length (sockets w) in
  exists w1 w2,
    SocketListener.constructor url None w = (Normal l, w1) /\
    trace w1 = trace w ++ [Console (DebugConnecting url); Console ErrorNoCallbacks] /\
    sockets w1 = sockets w ++
      [{| ws_url := url; listeners := [("close", length (scopes w))];
          closeCalled := false |}] /\
    Browser.dispatchEvent k event w1 = (Normal tt, w2) /\
    trace w2 = trace w1 ++ [Console (DebugClosed url 10)] /\
    timers w2 = timers w ++ [{| handler := BoundInitConnection l; timeout := 10000 |}].
Proof.
  intros Hurl Hty l k. subst l k. rewrite constructor_run by exact Hurl. unfold connected.
  cbn [SocketListenerObj.callbacks SocketListenerObj.url]. world_fields.
  set (w1 := Build_World _ _ _ _ _ _).
  assert (Hrun : Browser.dispatchEvent (length (sockets w)) event w1 =
                 (Normal tt,
                  with_timers (timers w ++ [{| handler := BoundInitConnection
                                                            (length (socketListeners w));
                                               timeout := 10000 |}])
                    (with_trace (trace w1 ++ [Console (DebugClosed url 10)]) w1))).
  { unfold Browser.dispatchEvent. subst w1. world_fields. rewrite lookup_snoc.
    cbn [listeners]. rewrite Hty. cbn [Browser.listening]. rewrite String.eqb_refl.
    cbn [forIn]. erewrite bind_Normal; [reflexivity|].
    unfold Browser.reported, Browser.listener. world_fields. rewrite lookup_snoc.
    cbn [Browser.callFn]. unfold SocketListener.reconnect.
    erewrite bind_Normal by
      (unfold readSocketListener; world_fields;
       now rewrite list_lookup_insert_eq by (rewrite length_app; simpl; lia)).
    reflexivity. }
  eexists _, _. split; [reflexivity|]. rewrite Hrun. subst w1. world_fields.
  repeat split.
Qed.

End Connecting.

(** ** StateListener.run, end to end *)

Section Wiring.
Context `{Platform}.

Lemma connected_wired (w : World) (this l : nat) (ol : SocketListenerObj.t) :
  socketListeners w !! l = Some ol ->
  SocketListenerObj.closed_repeat_delay ol = 10%Z ->
  SocketListenerObj.callbacks ol = Some (runCallbacks this) ->
  wired (connected l ol w) this l (length (sockets w)) (length (scopes w))
    (SocketListenerObj.set_socket (length (sockets w)) ol).
Proof.
  intros Hl Hdelay Hcb. pose proof (lookup_lt_Some _ _ _ Hl) as Hlt.
  unfold connected. rewrite Hcb. unfold wired. world_fields.
  split; [now apply list_lookup_insert_eq|]. split; [reflexivity|].
  split; [exact Hdelay|]. split; [exact Hcb|].
  split; [eexists; split; [apply lookup_snoc|reflexivity]|].
  split.
  - now rewrite list_lookup_middle.
  - rewrite lookup_app_r by lia.
    now replace (S (length (scopes w)) - length (scopes w)) with 1 by lia.
Qed.

Lemma wired_stateListeners (w : World) (x : list StateListenerObj.t)
    (this l k n : nat) (ol : SocketListenerObj.t) :
  wired w this l k n ol -> wired (with_stateListeners x w) this l k n ol.
Proof. exact id. Qed.

(** [run] on an existing StateListener whose URL the platform accepts: the
    world it leaves. *)
Lemma run_run (this : nat) (o : StateListenerObj.t) (w : World) :
  stateListeners w !! this = Some o ->
  acceptsUrl (StateListenerObj.url o) = true ->
  let l := length (socketListeners w) in
  let ol := SocketListenerObj.mk (StateListenerObj.url o) (Some (runCallbacks this)) 10 None in
  StateListener.run this w =
    (Normal tt,
     with_stateListeners (<[this := StateListenerObj.set_s l o]> (stateListeners w))
       (connected l ol (with_socketListeners (socketListeners w ++ [ol]) w))).
Proof.
  intros Hthis Hurl l ol. unfold StateListener.run.
  erewrite bind_Normal by (unfold readStateListener; now rewrite Hthis).
  erewrite bind_Normal by (apply constructor_run; exact Hurl).
  unfold writeStateListener.
  replace (stateListeners (connected _ _ _)) with (stateListeners w)
    by (unfold connected; cbn [SocketListenerObj.callbacks]; reflexivity).
  now rewrite Hthis.
Qed.

Lemma listening_message (n : nat) : Browser.listening "message" (runListeners n) = [n].
Proof. reflexivity. Qed.

Lemma listening_open (n : nat) : Browser.listening "open" (runListeners n) = [n].
Proof. reflexivity. Qed.

Lemma listening_close (n : nat) : Browser.listening "close" (runListeners n) = [n; S n].
Proof. reflexivity. Qed.

Lemma foreign_event_run (this : nat) (event : Event) (w : World) :
  type event <> "message" ->
  StateListener.genericEventListener this "message" event w = (Normal tt, w).
Proof.
  intros Hne. unfold StateListener.genericEventListener.
  apply String.eqb_neq in Hne. now rewrite Hne, andb_false_r.
Qed.

(** A state message at the socket of a wired StateListener. *)
Lemma wired_message (w : World) (this l k n : nat) (ol : SocketListenerObj.t)
    (o : StateListenerObj.t) (event : Event) (fields : list (string * JsValue)) :
  wired w this l k n ol ->
  stateListeners w !! this = Some o ->
  type event = "message" ->
  JSON_parse (data event) = Some (JObject fields) ->
  lookupField "event" fields = Some (JString "state") ->
  let v := match lookupField "data" fields with Some x => x | None => JUndefined end in
  Browser.dispatchEvent k event w =
    (Normal tt,
     with_trace (trace w ++ [Parsed (data event); notification o v])
       (with_stateListeners (<[this := StateListenerObj.set_state v o]> (stateListeners w)) w)).
Proof.
  intros (_ & _ & _ & _ & (ws & Hws & Hls) & Hn & _) Hthis Hty Hparse Hevent v.
  unfold Browser.dispatchEvent. rewrite Hws, Hls, Hty, listening_message. cbn [forIn].
  erewrite bind_Normal; [reflexivity|].
  unfold Browser.reported, Browser.listener. rewrite Hn. cbn [Browser.callFn].
  now rewrite (state_message_run this o event fields w Hthis Hty Hparse Hevent).
Qed.

(** An "open" event there: the listener under "open" calls the "message"
    closure, which ignores it. *)
Lemma wired_open (w : World) (this l k n : nat) (ol : SocketListenerObj.t) (event : Event) :
  wired w this l k n ol ->
  type event = "open" ->
  Browser.dispatchEvent k event w = (Normal tt, w).
Proof.
  intros (_ & _ & _ & _ & (ws & Hws & Hls) & Hn & _) Hty.
  unfold Browser.dispatchEvent. rewrite Hws, Hls, Hty, listening_open. cbn [forIn].
  erewrite bind_Normal; [reflexivity|].
  unfold Browser.reported, Browser.listener. rewrite Hn. cbn [Browser.callFn].
  rewrite foreign_event_run; [reflexivity|]. rewrite Hty. discriminate.
Qed.

(** A "close" event there: the same closure ignores it, and the
    reconnecting one sets its timer. *)
Lemma wired_close (w : World) (this l k n : nat) (ol : SocketListenerObj.t) (event : Event) :
  wired w this l k n ol ->
  type event = "close" ->
  Browser.dispatchEvent k event w =
    (Normal tt,
     with_timers (timers w ++ [{| handler := BoundInitConnection l; timeout := 10000 |}])
       (with_trace (trace w ++ [Console (DebugClosed (SocketListenerObj.url ol) 10)]) w)).
Proof.
  intros (Hl & _ & Hdelay & _ & (ws & Hws & Hls) & Hn & Hr) Hty.
  unfold Browser.dispatchEvent. rewrite Hws, Hls, Hty, listening_close. cbn [forIn].
  erewrite bind_Normal; cycle 1.
  { unfold Browser.reported, Browser.listener. rewrite Hn. cbn [Browser.callFn].
    rewrite foreign_event_run; [reflexivity|]. rewrite Hty. discriminate. }
  erewrite bind_Normal; [reflexivity|].
  unfold Browser.reported, Browser.listener. rewrite Hr. cbn [Browser.callFn].
  unfold SocketListener.reconnect.
  erewrite bind_Normal by (unfold readSocketListener; now rewrite Hl).
  rewrite Hdelay. reflexivity.
Qed.

End Wiring.

Section EndToEnd.
Context `{Platform}.

(** The world of [run_run] is wired. *)
Lemma run_wired (this : nat) (o : StateListenerObj.t) (w : World) :
  stateListeners w !! this = Some o ->
  acceptsUrl (StateListenerObj.url o) = true ->
  exists w1 ol,
    StateListener.run this w = (Normal tt, w1) /\
    wired w1 this (length (socketListeners w)) (length (sockets w)) (length (scopes w)) ol /\
    SocketListenerObj.url ol = StateListenerObj.url o /\
    stateListeners w1 !! this =
      Some (StateListenerObj.set_s (length (socketListeners w)) o) /\
    (forall j, j <> this -> stateListeners w1 !! j = stateListeners w !! j) /\
    timers w1 = timers w /\
    length (sockets w1) = S (length (sockets w)) /\
    length (socketListeners w1) = S (length (socketListeners w)) /\
    (forall k ws, sockets w !! k = Some ws -> sockets w1 !! k = Some ws) /\
    (forall n x, scopes w !! n = Some x -> scopes w1 !! n = Some x) /\
    (forall l x, socketListeners w !! l = Some x -> socketListeners w1 !! l = Some x).
Proof.
  intros Hthis Hurl. pose proof (lookup_lt_Some _ _ _ Hthis) as Hlt.
  rewrite (run_run this o w Hthis Hurl). cbn zeta.
  set (ol := SocketListenerObj.mk _ _ _ _).
  set (w0 := with_socketListeners _ w).
  assert (Hl : socketListeners w0 !! length (socketListeners w) = Some ol)
    by apply lookup_snoc.
  eexists _, _. split; [reflexivity|].
  split; [apply wired_stateListeners, (connected_wired w0 this _ ol Hl); reflexivity|].
  split; [reflexivity|]. world_fields.
  split; [now apply list_lookup_insert_eq|].
  split; [intros j Hj; now apply list_lookup_insert_ne|].
  unfold connected. cbn [SocketListenerObj.callbacks ol]. subst w0. world_fields.
  split; [reflexivity|].
  split; [rewrite length_app; simpl; lia|].
  split; [rewrite length_insert, length_app; simpl; lia|].
  split; [intros k ws Hk; now apply lookup_app_l_Some|].
  split; [intros n x Hn; now apply lookup_app_l_Some|].
  intros l x Hx. pose proof (lookup_lt_Some _ _ _ Hx).
  rewrite list_lookup_insert_ne by lia. now apply lookup_app_l_Some.
Qed.

(** X11: after [run()] for a URL the platform accepts, a "state" message
    arriving at the socket reaches the page: one parse, one notification with the [data] of the message
    (undefined when it has none), which is the state afterwards; no timer
    is set and no socket changes. *)
Theorem run_delivers_state_messages
    (w : World) (this : nat) (o : StateListenerObj.t) (event : Event)
    (fields : list (string * JsValue)) :
  stateListeners w !! this = Some o ->
  acceptsUrl (StateListenerObj.url o) = true ->
  type event = "message" ->
  JSON_parse (data event) = Some (JObject fields) ->
  lookupField "event" fields = Some (JString "state") ->
  let v := match lookupField "data" fields with Some x => x | None => JUndefined end in
  exists w1 w2 o2,
    StateListener.run this w = (Normal tt, w1) /\
    Browser.dispatchEvent (length (sockets w)) event w1 = (Normal tt, w2) /\
    trace w2 = trace w1 ++ [Parsed (data event); notification o v] /\
    stateListeners w2 !! this = Some o2 /\
    StateListenerObj.state o2 = v /\
    timers w2 = timers w1 /\
    sockets w2 = sockets w1.
Proof.
  intros Hthis Hurl Hty Hparse Hevent v.
  destruct (run_wired this o w Hthis Hurl) as (w1 & ol & Hrun & Hwired & _ & Hthis1 & _).
  pose proof (lookup_lt_Some _ _ _ Hthis1) as Hlt.
  exists w1. eexists _, _. split; [exact Hrun|].
  rewrite (wired_message w1 this _ _ _ ol _ event fields Hwired Hthis1 Hty Hparse Hevent).
  split; [reflexivity|]. world_fields. split; [reflexivity|].
  split; [now apply list_lookup_insert_eq|]. repeat split.
Qed.

(** X12: after [run()] for a URL the platform accepts, an "open" or a
    "close" event at the socket never
    reaches the StateListener's own branch for it: the listener under each
    name calls the "message" closure, which ignores the event.  No state is
    written and the state-change callback is not called; a "close" event
    only sets the reconnecting timer. *)
Theorem run_hides_open_and_close
    (w : World) (this : nat) (o : StateListenerObj.t) (event : Event) :
  stateListeners w !! this = Some o ->
  acceptsUrl (StateListenerObj.url o) = true ->
  type event = "open" \/ type event = "close" ->
  exists w1 w2,
    StateListener.run this w = (Normal tt, w1) /\
    Browser.dispatchEvent (length (sockets w)) event w1 = (Normal tt, w2) /\
    stateListeners w2 = stateListeners w1 /\
    trace w2 = trace w1 ++
      (if String.eqb (type event) "close"
       then [Console (DebugClosed (StateListenerObj.url o) 10)] else []) /\
    timers w2 = timers w1 ++
      (if String.eqb (type event) "close"
       then [{| handler := BoundInitConnection (length (socketListeners w));
                timeout := 10000 |}] else []).
Proof.
  intros Hthis Haccepted Hty.
  destruct (run_wired this o w Hthis Haccepted) as (w1 & ol & Hrun & Hwired & Hurl & _).
  exists w1. destruct Hty as [Hty|Hty].
  - exists w1. split; [exact Hrun|].
    split; [exact (wired_open w1 this _ _ _ ol event Hwired Hty)|].
    rewrite Hty. cbn. now rewrite !app_nil_r.
  - eexists. split; [exact Hrun|].
    rewrite (wired_close w1 this _ _ _ ol event Hwired Hty).
    split; [reflexivity|]. rewrite Hty, String.eqb_refl, Hurl. world_fields.
    repeat split.
Qed.

(** X13: the state survives a reconnect and updates keep arriving: after
    [run()] for a URL the platform accepts, a "close" event and the expiry of its timer, the StateListener
    still has the state it had, and a "state" message at the new socket is
    notified and stored. *)
Theorem reconnect_keeps_state_updates
    (w : World) (this : nat) (o : StateListenerObj.t) (closing event : Event)
    (fields : list (string * JsValue)) :
  stateListeners w !! this = Some o ->
  acceptsUrl (StateListenerObj.url o) = true ->
  type closing = "close" ->
  type event = "message" ->
  JSON_parse (data event) = Some (JObject fields) ->
  lookupField "event" fields = Some (JString "state") ->
  let v := match lookupField "data" fields with Some x => x | None => JUndefined end in
  exists w1 w2 w3 w4 o3 o4,
    StateListener.run this w = (Normal tt, w1) /\
    Browser.dispatchEvent (length (sockets w)) closing w1 = (Normal tt, w2) /\
    Browser.fireTimer (length (timers w)) w2 = (Normal tt, w3) /\
    stateListeners w3 !! this = Some o3 /\
    StateListenerObj.state o3 = StateListenerObj.state o /\
    Browser.dispatchEvent (S (length (sockets w))) event w3 = (Normal tt, w4) /\
    trace w4 = trace w3 ++ [Parsed (data event); notification o v] /\
    stateListeners w4 !! this = Some o4 /\
    StateListenerObj.state o4 = v.
Proof.
  intros Hthis Hurl Hclosing Hty Hparse Hevent v.
  destruct (run_wired this o w Hthis Hurl)
    as (w1 & ol & Hrun & Hwired & _ & Hthis1 & _ & Ht1 & Hso1 & _).
  pose proof (lookup_lt_Some _ _ _ Hthis1) as Hlt.
  pose proof (wired_close w1 this _ _ _ ol closing Hwired Hclosing) as Hclose.
  set (w2 := with_timers _ _) in Hclose.
  destruct Hwired as (Hl & Hk & Hdelay & Hcb & _).
  assert (Hfire := timer_connects w2 _ ol _ (timers w1) Hl eq_refl eq_refl).
  set (w2' := with_timers (timers w1) w2) in Hfire.
  assert (Hl' : socketListeners w2' !! length (socketListeners w) = Some ol) by exact Hl.
  pose proof (connected_wired w2' this _ ol Hl' Hdelay Hcb) as Hwired3.
  assert (Hthis3 : stateListeners (connected (length (socketListeners w)) ol w2') !! this =
                   Some (StateListenerObj.set_s (length (socketListeners w)) o)).
  { unfold connected. rewrite Hcb. exact Hthis1. }
  exists w1, w2. eexists _, _, _, _.
  split; [exact Hrun|]. split; [exact Hclose|].
  rewrite <- Ht1. split; [exact Hfire|].
  split; [exact Hthis3|]. split; [reflexivity|].
  replace (S (length (sockets w))) with (length (sockets w2')) by exact Hso1.
  rewrite (wired_message _ this _ _ _ _ _ event fields Hwired3 Hthis3 Hty Hparse Hevent).
  split; [reflexivity|]. world_fields. split; [reflexivity|].
  split; [apply list_lookup_insert_eq; eapply lookup_lt_Some; exact Hthis3|].
  reflexivity.
Qed.

End EndToEnd.

Section RunTwice.
Context `{Platform}.

Lemma wired_mono (w w' : World) (this l k n : nat) (ol : SocketListenerObj.t) :
  (forall k ws, sockets w !! k = Some ws -> sockets w' !! k = Some ws) ->
  (forall n x, scopes w !! n = Some x -> scopes w' !! n = Some x) ->
  (forall l x, socketListeners w !! l = Some x -> socketListeners w' !! l = Some x) ->
  wired w this l k n ol -> wired w' this l k n ol.
Proof.
  intros Hso Hsc Hsl (Hl & Hk & Hdelay & Hcb & (ws & Hws & Hls) & Hn & Hr).
  unfold wired. repeat (split; [solve [auto]|]).
  split; [exists ws; auto|]. split; auto.
Qed.

(** X14: [run()] does not look at [s]: for a URL the platform accepts, a
    second call opens a second
    connection and stores it in [s], while the first stays connected and
    wired to the same StateListener, so that a "state" message on the first
    socket is still notified and stored. *)
Theorem run_twice_keeps_both_connections
    (w : World) (this : nat) (o : StateListenerObj.t) (event : Event)
    (fields : list (string * JsValue)) :
  stateListeners w !! this = Some o ->
  acceptsUrl (StateListenerObj.url o) = true ->
  type event = "message" ->
  JSON_parse (data event) = Some (JObject fields) ->
  lookupField "event" fields = Some (JString "state") ->
  let v := match lookupField "data" fields with Some x => x | None => JUndefined end in
  exists w1 w2 w3 o2 o3,
    StateListener.run this w = (Normal tt, w1) /\
    StateListener.run this w1 = (Normal tt, w2) /\
    length (sockets w2) = length (sockets w) + 2 /\
    length (socketListeners w2) = length (socketListeners w) + 2 /\
    stateListeners w2 !! this = Some o2 /\
    StateListenerObj.s o2 = Some (S (length (socketListeners w))) /\
    Browser.dispatchEvent (length (sockets w)) event w2 = (Normal tt, w3) /\
    trace w3 = trace w2 ++ [Parsed (data event); notification o v] /\
    stateListeners w3 !! this = Some o3 /\
    StateListenerObj.state o3 = v.
Proof.
  intros Hthis Hurl Hty Hparse Hevent v.
  destruct (run_wired this o w Hthis Hurl)
    as (w1 & ol & Hrun1 & Hwired1 & _ & Hthis1 & _ & _ & Hso1 & Hsl1 & _).
  destruct (run_wired this _ w1 Hthis1 Hurl)
    as (w2 & ol2 & Hrun2 & _ & _ & Hthis2 & _ & _ & Hso2 & Hsl2 & Hp1 & Hp2 & Hp3).
  pose proof (wired_mono w1 w2 this _ _ _ ol Hp1 Hp2 Hp3 Hwired1) as Hwired2.
  exists w1, w2. eexists _, _, _.
  split; [exact Hrun1|]. split; [exact Hrun2|].
  split; [lia|]. split; [lia|].
  split; [exact Hthis2|]. split; [cbn; now rewrite Hsl1|].
  rewrite (wired_message w2 this _ _ _ ol _ event fields Hwired2 Hthis2 Hty Hparse Hevent).
  split; [reflexivity|]. world_fields. split; [reflexivity|].
  split; [apply list_lookup_insert_eq; eapply lookup_lt_Some; exact Hthis2|].
  reflexivity.
Qed.

End RunTwice.

(** ** Invariants of the reachable worlds *)

Lemma urlBound_connected (w : World) (l : nat) (o : SocketListenerObj.t) :
  socketListeners w !! l = Some o ->
  (forall l' o', l' <> l -> socketListeners w !! l' = Some o' ->
     exists k ws, SocketListenerObj.socket o' = Some k /\ sockets w !! k = Some ws /\
                  ws_url ws = SocketListenerObj.url o') ->
  urlBound (connected l o w).
Proof.
  intros Hl Hothers l' o'. pose proof (lookup_lt_Some _ _ _ Hl) as Hlt.
  assert (Hshape : exists ls,
            socketListeners (connected l o w) =
              <[l := SocketListenerObj.set_socket (length (sockets w)) o]> (socketListeners w) /\
            sockets (connected l o w) =
              sockets w ++ [{| ws_url := SocketListenerObj.url o; listeners := ls;
                               closeCalled := false |}]).
  { unfold connected. destruct (SocketListenerObj.callbacks o); eexists; split; reflexivity. }
  destruct Hshape as (ls & -> & ->).
  destruct (decide (l' = l)) as [->|Hne].
  - rewrite list_lookup_insert_eq by exact Hlt. intros [= <-].
    eexists _, _. split; [reflexivity|]. split; [apply lookup_snoc|reflexivity].
  - rewrite list_lookup_insert_ne by congruence. intros Hl'.
    destruct (Hothers l' o' Hne Hl') as (k & ws & Hk & Hws & Hurl).
    exists k, ws. split; [exact Hk|]. split; [now apply lookup_app_l_Some|exact Hurl].
Qed.

Lemma urlBound_update (w w' : World) (k : nat) (ws ws' : WebSocket) :
  sockets w !! k = Some ws ->
  ws_url ws' = ws_url ws ->
  socketListeners w' = socketListeners w ->
  sockets w' = <[k := ws']> (sockets w) ->
  urlBound w -> urlBound w'.
Proof.
  intros Hk Hurl Hsl Hso Hb l o. rewrite Hsl, Hso. intros Hl.
  pose proof (lookup_lt_Some _ _ _ Hk) as Hlt.
  destruct (Hb l o Hl) as (k1 & ws1 & Hk1 & Hws1 & Hurl1).
  destruct (decide (k1 = k)) as [->|Hne].
  - exists k, ws'. split; [exact Hk1|]. split; [now apply list_lookup_insert_eq|].
    congruence.
  - exists k1, ws1. split; [exact Hk1|]. split; [|exact Hurl1].
    rewrite list_lookup_insert_ne by congruence. exact Hws1.
Qed.

Lemma steady_same (w w' : World) :
  socketListeners w' = socketListeners w ->
  sockets w' = sockets w ->
  timers w' = timers w ->
  steady w -> steady w'.
Proof.
  intros Hsl Hso Ht [Hb Hv]. split.
  - intros l o. rewrite Hsl, Hso. apply Hb.
  - unfold timersValid. now rewrite Hsl, Ht.
Qed.

Lemma steady_connected (w : World) (l : nat) (o : SocketListenerObj.t) :
  socketListeners w !! l = Some o ->
  (forall l' o', l' <> l -> socketListeners w !! l' = Some o' ->
     exists k ws, SocketListenerObj.socket o' = Some k /\ sockets w !! k = Some ws /\
                  ws_url ws = SocketListenerObj.url o') ->
  timersValid w ->
  steady (connected l o w).
Proof.
  intros Hl Hothers Hv. split; [now apply urlBound_connected|].
  unfold timersValid.
  replace (timers (connected l o w)) with (timers w)
    by (unfold connected; now destruct (SocketListenerObj.callbacks o)).
  replace (length (socketListeners (connected l o w))) with (length (socketListeners w))
    by (unfold connected; destruct (SocketListenerObj.callbacks o);
        world_fields; now rewrite length_insert).
  exact Hv.
Qed.

Lemma timersValid_more (w : World) (x : list SocketListenerObj.t) :
  timersValid w -> timersValid (with_socketListeners (socketListeners w ++ x) w).
Proof.
  unfold timersValid. world_fields. intros Hv. eapply Forall_impl; [exact Hv|].
  intros [[l] ms] [Hms Hl]. split; [exact Hms|]. cbn in *. rewrite length_app. lia.
Qed.

Section Steady.
Context `{Platform}.

Lemma constructor_steady (url : string) (callbacks : option (list (string * Fn)))
    (w : World) :
  steady w -> steady (snd (SocketListener.constructor url callbacks w)).
Proof.
  intros Hst. destruct (acceptsUrl url) eqn:Hurl.
  - destruct Hst as [Hb Hv]. rewrite constructor_run by exact Hurl. cbn [snd].
    apply steady_connected.
    + world_fields. apply lookup_snoc.
    + intros l' o' Hne. world_fields. intros Hl'.
      apply lookup_app_Some in Hl' as [Hl'|[Hge Hl']].
      * exact (Hb l' o' Hl').
      * apply list_lookup_singleton_Some in Hl' as [Hl' _]. lia.
    + now apply timersValid_more.
  - rewrite constructor_rejected by exact Hurl. now apply (steady_same w).
Qed.

Lemma scheduled_valid (w : World) (scs : list nat) :
  wellConnected w ->
  Forall (fun t => timeout t = 10000%Z /\
                   match handler t with
                   | BoundInitConnection l => l < length (socketListeners w)
                   end) (flat_map (scheduledBy w) scs).
Proof.
  intros Hwc. induction scs as [|scope rest IH]; [constructor|].
  cbn [flat_map]. apply Forall_app. split; [|exact IH].
  unfold scheduledBy. destruct (scopes w !! scope) as [[[]|]|]; try constructor.
  destruct (socketListeners w !! self) as [o|] eqn:Hl; [|constructor].
  destruct (wc_listener w Hwc self o Hl) as (Hdelay & _).
  constructor; [|constructor]. cbn. rewrite Hdelay.
  split; [reflexivity|]. eapply lookup_lt_Some. exact Hl.
Qed.

Lemma step_steady (w w' : World) :
  step w w' -> wellConnected w -> steady w -> steady w'.
Proof.
  intros Hstep Hwc Hst.
  destruct Hstep as [url cbs Hc|this cbs [o Hthis] Hc|this [o Hthis]|url cb
                    |this [o Hthis]|k event [ws Hk]|i].
  - now apply constructor_steady.
  - destruct cbs as [props|].
    + destruct (wc_listener w Hwc this o Hthis) as (_ & _ & k & ws & Hk & Hws & _).
      rewrite (addListeners_Some this k o Hk props w ws Hthis Hws). cbn [snd].
      destruct Hst as [Hb Hv]. split.
      * eapply (urlBound_update w _ k ws (attach ws _)); [exact Hws| | | |exact Hb];
          reflexivity.
      * exact Hv.
    + rewrite addListeners_None. now apply (steady_same w).
  - destruct (wc_listener w Hwc this o Hthis) as (_ & _ & k & ws & Hk & Hws & _).
    rewrite (close_run this k o ws w Hthis Hk Hws). cbn [snd].
    destruct Hst as [Hb Hv]. split.
    + eapply (urlBound_update w _ k ws
                {| ws_url := ws_url ws; listeners := listeners ws; closeCalled := true |});
        [exact Hws| | | |exact Hb]; reflexivity.
    + exact Hv.
  - now apply (steady_same w).
  - unfold StateListener.run.
    erewrite bind_Normal by (unfold readStateListener; now rewrite Hthis).
    set (props := Some _).
    pose proof (constructor_steady (StateListenerObj.url o) props w Hst) as Hst1.
    unfold bind.
    destruct (SocketListener.constructor (StateListenerObj.url o) props w) as [[l|e] w1];
      cbn [snd] in *; [|exact Hst1].
    unfold writeStateListener. destruct (stateListeners w1 !! this); cbn [snd]; [|exact Hst1].
    now apply (steady_same w1).
  - destruct (dispatchEvent_effect k ws event w Hk) as (w1 & Hrun & Hconn & Ht).
    rewrite Hrun. cbn [snd]. unfold connection in Hconn. injection Hconn as Hsl Hso _.
    destruct Hst as [Hb Hv]. split.
    + intros l o. rewrite Hsl, Hso. apply Hb.
    + unfold timersValid. rewrite Ht, Hsl. apply Forall_app. split; [exact Hv|].
      now apply scheduled_valid.
  - unfold Browser.fireTimer.
    destruct (timers w !! i) as [[[self] ms]|]; [|exact Hst]. cbn [handler].
    set (w0 := with_timers _ w).
    assert (Hst0 : steady w0).
    { destruct Hst as [Hb Hv]. split; [exact Hb|].
      unfold timersValid. subst w0. world_fields. now apply Forall_delete. }
    unfold Browser.reported.
    destruct (socketListeners w0 !! self) as [o|] eqn:Hself.
    + rewrite (initConnection_run self o w0 Hself). cbn [snd].
      destruct Hst0 as [Hb0 Hv0]. apply steady_connected; [exact Hself| |exact Hv0].
      intros l' o' _. apply Hb0.
    + unfold SocketListener.initConnection.
      erewrite bind_Throw by (unfold readSocketListener; now rewrite Hself).
      cbn [snd]. now apply (steady_same w0).
Qed.

Lemma reachable_steady (w : World) : reachable w -> steady w.
Proof.
  induction 1 as [|w w' Hreach IH Hstep].
  - split; [intros l o Hl; discriminate Hl|constructor].
  - exact (step_steady w w' Hstep (reachable_wellConnected w Hreach) IH).
Qed.

(** X15: in every world the page can reach, each SocketListener has a
    socket (its [socket] is never undefined once the constructor has
    returned), that socket leads to the URL the instance was given, the
    delay of the instance is 10, and a "close" event at that socket calls
    the reconnecting closure of the instance exactly once. *)
Theorem every_instance_stays_connected
    (w : World) (l : nat) (o : SocketListenerObj.t) :
  reachable w ->
  socketListeners w !! l = Some o ->
  exists k ws,
    SocketListenerObj.socket o = Some k /\
    sockets w !! k = Some ws /\
    ws_url ws = SocketListenerObj.url o /\
    SocketListenerObj.closed_repeat_delay o = 10%Z /\
    reconnectors (scopes w) (listeners ws) = [l].
Proof.
  intros Hreach Hl.
  destruct (st_url w (reachable_steady w Hreach) l o Hl) as (k & ws & Hk & Hws & Hurl).
  destruct (wc_listener w (reachable_wellConnected w Hreach) l o Hl)
    as (Hdelay & _ & k' & ws' & Hk' & Hws' & Hrec).
  exists k, ws. repeat (split; [assumption|]).
  assert (k' = k) as -> by congruence. congruence.
Qed.

(** X16: in every world the page can reach, each pending timer was set by
    a reconnecting closure: it waits 10000 milliseconds and calls
    [initConnection] on a SocketListener that exists. *)
Theorem every_timer_is_a_reconnect (w : World) (i : nat) (t : Timer) :
  reachable w ->
  timers w !! i = Some t ->
  timeout t = 10000%Z /\
  exists l o, handler t = BoundInitConnection l /\ socketListeners w !! l = Some o.
Proof.
  intros Hreach Hi.
  pose proof (st_timers w (reachable_steady w Hreach)) as Hv.
  unfold timersValid in Hv. rewrite Forall_lookup in Hv.
  destruct (Hv i t Hi) as [Hms Hl]. split; [exact Hms|].
  destruct t as [[l] ms]. cbn in *.
  apply lookup_lt_is_Some in Hl as [o Ho]. eauto.
Qed.

End Steady.

(** ** The further properties at sample inputs *)

Lemma state_message_without_data_witness :
  exists w',
    @StateListener.genericEventListener edgePlatform 0 "message"
      (messageEvent bareStateMessage) runningWorld = (Normal tt, w') /\
    trace w' = trace runningWorld ++
                 [Parsed bareStateMessage; Called 7 (ArgValue JUndefined)] /\
    stateListeners w' !! 0 = Some (StateListenerObj.set_state JUndefined runningListener).
Proof.
  exact (@state_message_without_data edgePlatform runningWorld 0 runningListener
           (messageEvent bareStateMessage) [("event", JString "state")]
           eq_refl eq_refl eq_refl eq_refl eq_refl).
Defined.

Lemma null_message_throws_type_error_witness :
  @StateListener.genericEventListener edgePlatform 0 "message"
    (messageEvent "null") runningWorld =
    (Throw TypeError, with_trace (trace runningWorld ++ [Parsed "null"]) runningWorld).
Proof.
  exact (@null_message_throws_type_error edgePlatform runningWorld 0 (messageEvent "null")
           eq_refl eq_refl).
Defined.

Lemma message_without_event_ignored_witness :
  @StateListener.genericEventListener edgePlatform 0 "message"
    (messageEvent "5") runningWorld =
    (Normal tt, with_trace (trace runningWorld ++ [Parsed "5"]) runningWorld).
Proof.
  exact (@message_without_event_ignored edgePlatform runningWorld 0 (messageEvent "5")
           (JNumber "5") eq_refl eq_refl I).
Defined.

Lemma handleStateUpdate_twice_witness :
  exists w',
    (do _ <- StateListener.handleStateUpdate 0 (JString "a");
     StateListener.handleStateUpdate 0 (JString "b")) runningWorld = (Normal tt, w') /\
    trace w' = trace runningWorld ++
                 [Called 7 (ArgValue (JString "a")); Called 7 (ArgValue (JString "b"))] /\
    stateListeners w' =
      <[0 := StateListenerObj.set_state (JString "b") runningListener]>
        (stateListeners runningWorld).
Proof.
  exact (handleStateUpdate_twice runningWorld 0 runningListener (JString "a") (JString "b")
           eq_refl).
Defined.


Lemma addListeners_shares_one_callback_witness :
  exists w',
    SocketListener.addListeners 0 (Some [("open", PageFn 3); ("message", PageFn 4)])
      connectedWorld = (Normal tt, w') /\
    sockets w' = [attach connectedSocket [("open", 2); ("message", 2)]] /\
    scopes w' = scopes connectedWorld ++ [Some (PageFn 4)].
Proof.
  destruct (addListeners_shares_one_callback connectedWorld 0 0 connectedListener
              connectedSocket [("open", PageFn 3); ("message", PageFn 4)]
              eq_refl eq_refl eq_refl) as (w' & Hrun & Hso & Hsc & _).
  exists w'. split; [exact Hrun|]. split; [exact Hso|exact Hsc].
Defined.

Lemma manual_listeners_not_readded_witness :
  exists w2 ws2,
    SocketListener.initConnection 0
      (snd (SocketListener.addListeners 0 (Some [("open", PageFn 3)]) connectedWorld)) =
      (Normal tt, w2) /\
    sockets w2 !! 0 = Some (attach connectedSocket [("open", 2)]) /\
    sockets w2 !! 1 = Some ws2 /\
    map fst (listeners ws2) = ["close"; "message"; "close"] /\
    Forall (fun p => p.2 <> 2) (listeners ws2).
Proof.
  destruct (manual_listeners_not_readded connectedWorld 0 0 connectedListener
              connectedSocket [("open", PageFn 3)] eq_refl eq_refl eq_refl)
    as (w2 & ws2 & Hrun & Hold & _ & Hnew & Hkeys & Hscopes).
  exists w2, ws2. split; [exact Hrun|]. split; [exact Hold|]. split; [exact Hnew|].
  split; [exact Hkeys|exact Hscopes].
Defined.

Lemma close_twice_is_close_once_witness :
  exists w1,
    SocketListener.close 0 connectedWorld = (Normal tt, w1) /\
    SocketListener.close 0 w1 = (Normal tt, w1).
Proof.
  exact (close_twice_is_close_once connectedWorld 0 0 connectedListener connectedSocket
           eq_refl eq_refl eq_refl).
Defined.

Lemma constructor_without_callbacks_reconnects_witness :
  exists w1 w2,
    @SocketListener.constructor samplePlatform "wss://x" None emptyWorld =
      (Normal 0, w1) /\
    trace w1 = [Console (DebugConnecting "wss://x"); Console ErrorNoCallbacks] /\
    sockets w1 = [{| ws_url := "wss://x"; listeners := [("close", 0)];
                     closeCalled := false |}] /\
    @Browser.dispatchEvent samplePlatform 0 closeEvent w1 = (Normal tt, w2) /\
    trace w2 = trace w1 ++ [Console (DebugClosed "wss://x" 10)] /\
    timers w2 = [{| handler := BoundInitConnection 0; timeout := 10000 |}].
Proof.
  exact (@constructor_without_callbacks_reconnects samplePlatform emptyWorld "wss://x"
           closeEvent eq_refl eq_refl).
Defined.

Lemma run_delivers_state_messages_witness :
  exists w1 w2,
    @StateListener.run samplePlatform 0 constructedWorld = (Normal tt, w1) /\
    @Browser.dispatchEvent samplePlatform 0 (messageEvent stateMessage) w1 =
      (Normal tt, w2) /\
    trace w2 = trace w1 ++
                 [Parsed stateMessage;
                  Called 7 (ArgValue (JObject [("phase", JString "ready")]))].
Proof.
  destruct (@run_delivers_state_messages samplePlatform constructedWorld 0
              constructedListener (messageEvent stateMessage)
              [("event", JString "state"); ("data", JObject [("phase", JString "ready")])]
              eq_refl eq_refl eq_refl eq_refl eq_refl)
    as (w1 & w2 & o2 & Hrun & Hmsg & Htrace & _).
  exists w1, w2. split; [exact Hrun|]. split; [exact Hmsg|exact Htrace].
Defined.

Lemma run_hides_open_and_close_witness :
  exists w1 w2,
    @StateListener.run samplePlatform 0 constructedWorld = (Normal tt, w1) /\
    @Browser.dispatchEvent samplePlatform 0 closeEvent w1 = (Normal tt, w2) /\
    stateListeners w2 = stateListeners w1 /\
    trace w2 = trace w1 ++ [Console (DebugClosed "wss://x/y" 10)].
Proof.
  destruct (@run_hides_open_and_close samplePlatform constructedWorld 0 constructedListener
              closeEvent eq_refl eq_refl (or_intror eq_refl))
    as (w1 & w2 & Hrun & Hclose & Hstate & Htrace & _).
  exists w1, w2. split; [exact Hrun|]. split; [exact Hclose|].
  split; [exact Hstate|exact Htrace].
Defined.

Lemma reconnect_keeps_state_updates_witness :
  exists w3 w4 o4,
    @Browser.dispatchEvent samplePlatform 1 (messageEvent stateMessage) w3 =
      (Normal tt, w4) /\
    stateListeners w4 !! 0 = Some o4 /\
    StateListenerObj.state o4 = JObject [("phase", JString "ready")].
Proof.
  destruct (@reconnect_keeps_state_updates samplePlatform constructedWorld 0
              constructedListener closeEvent (messageEvent stateMessage)
              [("event", JString "state"); ("data", JObject [("phase", JString "ready")])]
              eq_refl eq_refl eq_refl eq_refl eq_refl eq_refl)
    as (w1 & w2 & w3 & w4 & o3 & o4 & _ & _ & _ & _ & _ & Hmsg & _ & Hthis & Hstate).
  exists w3, w4, o4. split; [exact Hmsg|]. split; [exact Hthis|exact Hstate].
Defined.

Lemma run_twice_keeps_both_connections_witness :
  exists w2 w3 o2,
    length (sockets w2) = 2 /\
    stateListeners w2 !! 0 = Some o2 /\
    StateListenerObj.s o2 = Some 1 /\
    @Browser.dispatchEvent samplePlatform 0 (messageEvent stateMessage) w2 =
      (Normal tt, w3) /\
    trace w3 = trace w2 ++
                 [Parsed stateMessage;
                  Called 7 (ArgValue (JObject [("phase", JString "ready")]))].
Proof.
  destruct (@run_twice_keeps_both_connections samplePlatform constructedWorld 0
              constructedListener (messageEvent stateMessage)
              [("event", JString "state"); ("data", JObject [("phase", JString "ready")])]
              eq_refl eq_refl eq_refl eq_refl eq_refl)
    as (w1 & w2 & w3 & o2 & o3 & _ & _ & Hso & _ & Hthis & Hs & Hmsg & Htrace & _).
  exists w2, w3, o2. split; [exact Hso|]. split; [exact Hthis|]. split; [exact Hs|].
  split; [exact Hmsg|exact Htrace].
Defined.

Lemma every_instance_stays_connected_witness :
  exists k ws,
    SocketListenerObj.socket connectedListener = Some k /\
    sockets connectedWorld !! k = Some ws /\
    ws_url ws = "wss://x" /\
    SocketListenerObj.closed_repeat_delay connectedListener = 10%Z /\
    reconnectors (scopes connectedWorld) (listeners ws) = [0].
Proof.
  exact (@every_instance_stays_connected samplePlatform connectedWorld 0 connectedListener
           connectedWorld_reachable eq_refl).
Defined.

Lemma closedWorld_reachable : @reachable samplePlatform closedWorld.
Proof.
  exact (@reachable_step samplePlatform connectedWorld closedWorld connectedWorld_reachable
           (@step_event samplePlatform connectedWorld 0 closeEvent
              (mk_is_Some _ connectedSocket eq_refl))).
Defined.

Lemma every_timer_is_a_reconnect_witness :
  timeout {| handler := BoundInitConnection 0; timeout := 10000 |} = 10000%Z /\
  exists l o,
    handler {| handler := BoundInitConnection 0; timeout := 10000 |} =
      BoundInitConnection l /\
    socketListeners closedWorld !! l = Some o.
Proof.
  exact (@every_timer_is_a_reconnect samplePlatform closedWorld 0
           {| handler := BoundInitConnection 0; timeout := 10000 |}
           closedWorld_reachable eq_refl).
Defined.


Lemma retries_unbounded_witness :
  let wn := @retries samplePlatform closeEvent 0 3 connectedWorld in
  @reachable samplePlatform wn /\
  is_Some (socketListeners wn !! 0) /\
  length (sockets wn) = length (sockets connectedWorld) + 3 /\
  timers wn = timers connectedWorld.
Proof.
  exact (@retries_unbounded samplePlatform connectedWorld 0 connectedListener closeEvent 3
           connectedWorld_reachable eq_refl eq_refl).
Defined.

(** ** The URLs of the instances in the store *)

Section AcceptedUrls.
Context `{Platform}.

Lemma connected_urls (w : World) (l : nat) (o : SocketListenerObj.t) :
  socketListeners w !! l = Some o ->
  (forall l' o', socketListeners w !! l' = Some o' ->
     acceptsUrl (SocketListenerObj.url o') = true) ->
  forall l' o', socketListeners (connected l o w) !! l' = Some o' ->
    acceptsUrl (SocketListenerObj.url o') = true.
Proof.
  intros Hl Hall l' o'. pose proof (lookup_lt_Some _ _ _ Hl) as Hlt.
  replace (socketListeners (connected l o w))
    with (<[l := SocketListenerObj.set_socket (length (sockets w)) o]> (socketListeners w))
    by (unfold connected; now destruct (SocketListenerObj.callbacks o)).
  destruct (decide (l' = l)) as [->|Hne].
  - rewrite list_lookup_insert_eq by exact Hlt. intros [= <-]. exact (Hall l o Hl).
  - rewrite list_lookup_insert_ne by congruence. apply Hall.
Qed.

(** The total [newWebSocket] of [initConnection] is never applied to a URL
    the platform rejects: in every world the page can reach, the URL of each
    SocketListener in the store is one the platform accepts. *)
Lemma reachable_urls_accepted (w : World) :
  reachable w ->
  forall l o, socketListeners w !! l = Some o ->
    acceptsUrl (SocketListenerObj.url o) = true.
Proof.
  induction 1 as [|w w' Hreach IH Hstep]; [intros l o Hl; discriminate Hl|].
  pose proof (reachable_wellConnected w Hreach) as Hwc.
  destruct Hstep as [url cbs Hc|this cbs [o Hthis] Hc|this [o Hthis]|url cb
                    |this [o Hthis]|k event [ws Hk]|i].
  - destruct (acceptsUrl url) eqn:Hurl.
    + rewrite constructor_run by exact Hurl. cbn [snd].
      apply connected_urls; [world_fields; apply lookup_snoc|].
      intros l' o'. world_fields. intros Hl'.
      apply lookup_app_Some in Hl' as [Hl'|[_ Hl']]; [exact (IH l' o' Hl')|].
      apply list_lookup_singleton_Some in Hl' as [_ <-]. exact Hurl.
    + rewrite constructor_rejected by exact Hurl. exact IH.
  - destruct cbs as [props|]; [|exact IH].
    destruct (wc_listener w Hwc this o Hthis) as (_ & _ & k & ws & Hk & Hws & _).
    rewrite (addListeners_Some this k o Hk props w ws Hthis Hws). exact IH.
  - destruct (wc_listener w Hwc this o Hthis) as (_ & _ & k & ws & Hk & Hws & _).
    rewrite (close_run this k o ws w Hthis Hk Hws). exact IH.
  - exact IH.
  - unfold StateListener.run.
    erewrite bind_Normal by (unfold readStateListener; now rewrite Hthis).
    set (props := Some _). unfold bind.
    destruct (acceptsUrl (StateListenerObj.url o)) eqn:Hurl.
    + rewrite constructor_run by exact Hurl.
      assert (Hall : forall l' o',
                 socketListeners
                   (connected (length (socketListeners w))
                      (SocketListenerObj.mk (StateListenerObj.url o) props 10 None)
                      (with_socketListeners
                         (socketListeners w ++
                            [SocketListenerObj.mk (StateListenerObj.url o) props 10 None]) w))
                   !! l' = Some o' ->
                 acceptsUrl (SocketListenerObj.url o') = true).
      { apply connected_urls; [world_fields; apply lookup_snoc|].
        intros l' o'. world_fields. intros Hl'.
        apply lookup_app_Some in Hl' as [Hl'|[_ Hl']]; [exact (IH l' o' Hl')|].
        apply list_lookup_singleton_Some in Hl' as [_ <-]. exact Hurl. }
      unfold writeStateListener.
      destruct (stateListeners _ !! this); exact Hall.
    + rewrite constructor_rejected by exact Hurl. exact IH.
  - destruct (dispatchEvent_effect k ws event w Hk) as (w1 & Hrun & Hconn & _).
    rewrite Hrun. cbn [snd]. unfold connection in Hconn. injection Hconn as -> _ _.
    exact IH.
  - unfold Browser.fireTimer.
    destruct (timers w !! i) as [[[self] ms]|]; [|exact IH]. cbn [handler].
    set (w0 := with_timers _ w). unfold Browser.reported.
    destruct (socketListeners w0 !! self) as [o|] eqn:Hself.
    + rewrite (initConnection_run self o w0 Hself). cbn [snd].
      now apply connected_urls.
    + unfold SocketListener.initConnection.
      erewrite bind_Throw by (unfold readSocketListener; now rewrite Hself).
      exact IH.
Qed.

End AcceptedUrls.
